(** * Wallace / Dallinger graph model: a shallow embedding

    The development follows [wallace/models.py] (the node / vector / info /
    transmission model) and [dallinger/db.py] (the serializable-transaction
    wrapper).  Tables of the relational store are lists of rows in insertion
    order; Python methods become functions in a state-and-exception monad over
    the world (store, clock, uuid source, standard output). *)

From Stdlib Require Import String Ascii List Bool Arith Lia Permutation Sorted.
Import ListNotations.
Open Scope string_scope.

(** ** Python values that the model distinguishes *)

(** The driver error that an [OperationalError] wraps ([exc.orig]). *)
Inductive dbapi_error : Type :=
| TransactionRollbackError
| OtherDatabaseError (msg : string).

(** Exceptions raised by the two source files. *)
Inductive exn : Type :=
| ValueError (msg : string)
| NameError (msg : string)
| AttributeError (msg : string)
| NotImplementedError (msg : string)
| RuntimeError (msg : string)
| OperationalError (orig : dbapi_error)
| Exception (msg : string).

(** The classes that [models.py] defines and tests with [isinstance] /
    [issubclass].  [Other_class] stands for any class outside both the [Node]
    and the [Info] hierarchy. *)
Inductive pyclass : Type :=
| Node_class
| Agent_class
| Source_class
| Info_class
| Other_class.

Definition pyclass_eqb (c d : pyclass) : bool :=
  match c, d with
  | Node_class, Node_class
  | Agent_class, Agent_class
  | Source_class, Source_class
  | Info_class, Info_class
  | Other_class, Other_class => true
  | _, _ => false
  end.

(** [class Agent(Node)], [class Source(Node)]; every class is a subclass of
    itself. *)
Definition issubclass (c d : pyclass) : bool :=
  pyclass_eqb c d ||
  match c, d with
  | Agent_class, Node_class | Source_class, Node_class => true
  | _, _ => false
  end.

(** The [polymorphic_identity] stored in the [type] column. *)
Definition polymorphic_identity (c : pyclass) : string :=
  match c with
  | Node_class => "base"
  | Agent_class => "agent"
  | Source_class => "generic_source"
  | Info_class => "base"
  | Other_class => ""
  end.

Inductive node_status : Type := alive | dead | failed.

Inductive vector_status : Type := vector_alive | vector_dead.

(** ** Rows of the tables ([__tablename__] gives the record its name) *)

Record node : Type := mk_node {
  node_uuid : string;
  node_class : pyclass;
  node_creation_time : string;
  node_status_ : node_status;
  node_time_of_death : option string;
  node_network_uuid : option string;
  node_participant_uuid : option string
}.

Record vector : Type := mk_vector {
  vector_uuid : string;
  vector_origin_uuid : string;
  vector_destination_uuid : string;
  vector_status_ : vector_status;
  vector_time_of_death : option string
}.

Record network : Type := mk_network {
  network_uuid : string;
  network_type : string;
  network_creation_time : string
}.

Record info : Type := mk_info {
  info_uuid : string;
  info_type : string;
  info_origin_uuid : string;
  info_creation_time : string;
  info_contents : option string
}.

Record transmission : Type := mk_transmission {
  transmission_uuid : string;
  transmission_info_uuid : string;
  transmission_transmit_time : string;
  transmission_receive_time : option string;
  transmission_destination_uuid : string
}.

Record transformation : Type := mk_transformation {
  transformation_type : string;
  transformation_uuid : string;
  transformation_node_uuid : string;
  transformation_info_in_uuid : string;
  transformation_info_out_uuid : string;
  transformation_transform_time : string
}.

(** The session's view of the database: one list of rows per table. *)
Record store : Type := mk_store {
  nodes : list node;
  vectors : list vector;
  networks : list network;
  infos : list info;
  transmissions : list transmission;
  transformations : list transformation
}.

(** An invocation of the [update] hook: the receiving node and the list it
    was handed ([t.info] is [None] when no row carries the key). *)
Definition update_call : Type := (string * list (option info))%type.

(** The world a method runs in.  [clock k] is what the [k]-th call of
    [datetime.now()] formats to, [uuid4 k] the [k]-th [uuid4().hex];
    [update_calls] records the invocations of [update] in order. *)
Record world : Type := mk_world {
  db : store;
  clock : nat -> string;
  ticks : nat;
  uuid4 : nat -> string;
  drawn : nat;
  stdout : list string;
  update_calls : list update_call
}.

(** ** State and exceptions *)

(** A raised exception leaves the mutations made so far in place. *)
Inductive result (A : Type) : Type :=
| Return (a : A)
| Raise (e : exn).
Arguments Return {A} a.
Arguments Raise {A} e.

Definition M (S A : Type) : Type := S -> S * result A.

Definition ret {S A} (a : A) : M S A := fun s => (s, Return a).

Definition raise {S A} (e : exn) : M S A := fun s => (s, Raise e).

Definition bind {S A B} (c : M S A) (k : A -> M S B) : M S B :=
  fun s =>
    match c s with
    | (s', Return a) => k a s'
    | (s', Raise e) => (s', Raise e)
    end.

Definition gets {S A} (f : S -> A) : M S A := fun s => (s, Return (f s)).

Definition modify {S} (f : S -> S) : M S unit := fun s => (f s, Return tt).

Declare Scope py_scope.
Delimit Scope py_scope with py.
Notation "x <- c ;; k" := (bind c (fun x => k))
  (at level 61, c at next level, right associativity) : py_scope.
Notation "c ;;; k" := (bind c (fun _ => k))
  (at level 61, right associativity) : py_scope.
Open Scope py_scope.

(** [for x in xs: body(x)] *)
Fixpoint for_each {S A} (xs : list A) (body : A -> M S unit) : M S unit :=
  match xs with
  | [] => ret tt
  | x :: xs' => body x ;;; for_each xs' body
  end.

Definition state_after {S A} (r : S * result A) : S := fst r.
Definition outcome {S A} (r : S * result A) : result A := snd r.

(** ** Setters (Python attribute assignment on a mapped object) *)

Definition set_node_status (st : node_status) (n : node) : node :=
  mk_node (node_uuid n) (node_class n) (node_creation_time n) st
          (node_time_of_death n) (node_network_uuid n)
          (node_participant_uuid n).

Definition set_node_time_of_death (t : option string) (n : node) : node :=
  mk_node (node_uuid n) (node_class n) (node_creation_time n)
          (node_status_ n) t (node_network_uuid n)
          (node_participant_uuid n).

Definition set_node_network_uuid (u : option string) (n : node) : node :=
  mk_node (node_uuid n) (node_class n) (node_creation_time n)
          (node_status_ n) (node_time_of_death n) u
          (node_participant_uuid n).

Definition set_info_contents (c : option string) (i : info) : info :=
  mk_info (info_uuid i) (info_type i) (info_origin_uuid i)
          (info_creation_time i) c.

Definition set_transmission_receive_time (t : option string)
    (x : transmission) : transmission :=
  mk_transmission (transmission_uuid x) (transmission_info_uuid x)
                  (transmission_transmit_time x) t
                  (transmission_destination_uuid x).

Definition set_nodes (f : list node -> list node) (s : store) : store :=
  mk_store (f (nodes s)) (vectors s) (networks s) (infos s)
           (transmissions s) (transformations s).

Definition set_vectors (f : list vector -> list vector) (s : store) : store :=
  mk_store (nodes s) (f (vectors s)) (networks s) (infos s)
           (transmissions s) (transformations s).

Definition set_transmissions (f : list transmission -> list transmission)
    (s : store) : store :=
  mk_store (nodes s) (vectors s) (networks s) (infos s)
           (f (transmissions s)) (transformations s).

Definition set_db (f : store -> store) (w : world) : world :=
  mk_world (f (db w)) (clock w) (ticks w) (uuid4 w) (drawn w) (stdout w)
           (update_calls w).

(** An object is identified by its primary key: assigning to an attribute
    rewrites the row that carries the key. *)
Definition update_node (u : string) (f : node -> node) : list node -> list node :=
  map (fun n => if node_uuid n =? u then f n else n).

Definition update_transmission (u : string) (f : transmission -> transmission)
  : list transmission -> list transmission :=
  map (fun t => if transmission_uuid t =? u then f t else t).

Definition set_vector_status (st : vector_status) (v : vector) : vector :=
  mk_vector (vector_uuid v) (vector_origin_uuid v) (vector_destination_uuid v)
            st (vector_time_of_death v).

Definition set_vector_time_of_death (t : option string) (v : vector)
  : vector :=
  mk_vector (vector_uuid v) (vector_origin_uuid v) (vector_destination_uuid v)
            (vector_status_ v) t.

Definition update_vector (u : string) (f : vector -> vector)
  : list vector -> list vector :=
  map (fun v => if vector_uuid v =? u then f v else v).

Definition get_node (u : string) (s : store) : option node :=
  find (fun n => node_uuid n =? u) (nodes s).

Definition get_info (u : string) (s : store) : option info :=
  find (fun i => info_uuid i =? u) (infos s).

(** ** Module-level functions of [models.py] *)

(** [uuid4().hex] *)
Definition new_uuid : M world string :=
  fun w =>
    (mk_world (db w) (clock w) (ticks w) (uuid4 w) (S (drawn w)) (stdout w)
              (update_calls w),
     Return (uuid4 w (drawn w))).

(** [datetime.now().strftime(DATETIME_FMT)] *)
Definition timenow : M world string :=
  fun w =>
    (mk_world (db w) (clock w) (S (ticks w)) (uuid4 w) (drawn w) (stdout w)
              (update_calls w),
     Return (clock w (ticks w))).

(** The [print] statement. *)
Definition print (line : string) : M world unit :=
  modify (fun w =>
    mk_world (db w) (clock w) (ticks w) (uuid4 w) (drawn w)
             (stdout w ++ [line])%list (update_calls w)).

(** ** Ordered queries *)

(** [ORDER BY] is modelled by a stable insertion sort over the table order
    (the store leaves the order of equal keys open). *)
Fixpoint insert_by {A} (le : A -> A -> bool) (x : A) (l : list A) : list A :=
  match l with
  | [] => [x]
  | y :: l' => if le x y then x :: y :: l' else y :: insert_by le x l'
  end.

Definition sort_by {A} (le : A -> A -> bool) (l : list A) : list A :=
  fold_right (insert_by le) [] l.

(** Ascending and descending order on a text column. *)
Definition asc {A} (key : A -> string) (a b : A) : bool :=
  (key a <=? key b)%string.

Definition desc {A} (key : A -> string) (a b : A) : bool :=
  (key b <=? key a)%string.

Definition is_None {A} (o : option A) : bool :=
  match o with None => true | Some _ => false end.

(** ** class Info *)

Module Info.

(** [getattr(self, key)] for the names of the mapped columns of an Info.
    The validator below is registered for [contents] and is called with no
    other name; the relationship attributes of an Info are not modelled. *)
Definition getattr (self : info) (key : string) : M info (option string) :=
  if key =? "contents" then ret (info_contents self)
  else if key =? "uuid" then ret (Some (info_uuid self))
  else if key =? "type" then ret (Some (info_type self))
  else if key =? "origin_uuid" then ret (Some (info_origin_uuid self))
  else if key =? "creation_time" then ret (Some (info_creation_time self))
  else raise (AttributeError
                ("'Info' object has no attribute '" ++ key ++ "'")).

(** [@validates("contents") def _write_once(self, key, value)] *)
Definition _write_once (self : info) (key : string) (value : option string)
  : M info (option string) :=
  existing <- getattr self key ;;
  if negb (is_None existing)
  then raise (ValueError "The contents of an info is write-once.")
  else ret value.

(** [self.contents = value]: the assignment goes through the validator,
    called with the name of the attribute, and stores what it returns. *)
Definition set_contents (value : option string) : M info unit :=
  fun self =>
    (v <- _write_once self "contents" value ;;
     modify (set_info_contents v)) self.

(** [def __repr__(self)] *)
Definition __repr__ (self : info) : string :=
  "Info-" ++ substring 0 6 (info_uuid self) ++ "-" ++ info_type self.

End Info.

(** ** Name resolution inside a method body *)

(** The names bound at module level in [models.py] (imports, constants,
    functions and classes).  Names defined in a class body, such as the
    properties of [Node], are attributes of the class and are not among
    them. *)
Definition module_globals : list string :=
  [ "uuid4"; "datetime"; "Base"; "ForeignKey"; "desc"; "Column"; "String";
    "Text"; "Enum"; "relationship"; "validates"; "hybrid_property"; "func";
    "select"; "association_proxy"; "inspect"; "DATETIME_FMT"; "new_uuid";
    "timenow"; "Node"; "Agent"; "Source"; "Vector"; "Network"; "Info";
    "Transmission"; "Transformation" ].

(** The built-in names that the methods use. *)
Definition builtins : list string :=
  [ "isinstance"; "issubclass"; "getattr"; "len"; "any"; "type"; "list";
    "None"; "ValueError"; "NotImplementedError"; "SyntaxError" ].

(** Loading a name that is neither a local of the function nor bound in the
    module or the built-ins raises [NameError]. *)
Definition load_global {S} (name : string) : M S unit :=
  if existsb (String.eqb name) (module_globals ++ builtins)%list
  then ret tt
  else raise (NameError ("global name '" ++ name ++ "' is not defined")).

(** [Query.one()]: the single row of the result, [NoResultFound] when the
    result is empty, [MultipleResultsFound] when it has more rows. *)
Inductive one_result (A : Type) : Type :=
| One (a : A)
| NoResultFound
| MultipleResultsFound.
Arguments One {A} a.
Arguments NoResultFound {A}.
Arguments MultipleResultsFound {A}.

Definition one {A} (rows : list A) : one_result A :=
  match rows with
  | [] => NoResultFound
  | [a] => One a
  | _ :: _ :: _ => MultipleResultsFound
  end.

(** ** class Transmission *)

Module Transmission.

(** [def mark_received(self)] *)
Definition mark_received (self : transmission) : M world unit :=
  now <- timenow ;;
  modify (set_db (set_transmissions
    (update_transmission (transmission_uuid self)
       (set_transmission_receive_time (Some now))))).

(** The [info] relationship: the Info row that [info_uuid] points to. *)
Definition info_ (self : transmission) (s : store) : option info :=
  get_info (transmission_info_uuid self) s.

(** [origin_uuid = association_proxy('info', 'origin_uuid')] *)
Definition origin_uuid (self : transmission) (s : store) : option string :=
  option_map info_origin_uuid (info_ self s).

Definition __repr__ (self : transmission) : string :=
  "Transmission-" ++ substring 0 6 (transmission_uuid self).

(** The [vector] property: the vector from the origin of the Info to the
    destination, fetched with [one()].  A transmission whose Info is missing
    has origin [None], which no vector row matches. *)
Definition vector (self : transmission) (s : store) : one_result vector :=
  one (filter (fun v =>
                 match origin_uuid self s with
                 | Some o => vector_origin_uuid v =? o
                 | None => false
                 end
                 && (vector_destination_uuid v
                     =? transmission_destination_uuid self))
              (vectors s)).

End Transmission.

(** ** class Vector *)

Module Vector.

(** [def kill(self)] *)
Definition kill (self : vector) : M world unit :=
  modify (set_db (set_vectors
    (update_vector (vector_uuid self) (set_vector_status vector_dead)))) ;;;
  now <- timenow ;;
  modify (set_db (set_vectors
    (update_vector (vector_uuid self)
       (set_vector_time_of_death (Some now))))).

(** [def __repr__(self)] *)
Definition __repr__ (self : vector) : string :=
  "Vector-" ++ substring 0 6 (vector_origin_uuid self) ++ "-"
            ++ substring 0 6 (vector_destination_uuid self).

(** The [transmissions] property: the transmissions whose Info comes from
    the origin of the vector and whose destination is its destination,
    ordered by [transmit_time]. *)
Definition transmissions_ (self : vector) (s : store) : list transmission :=
  sort_by (asc transmission_transmit_time)
    (filter (fun t =>
               match Transmission.origin_uuid t s with
               | Some o => o =? vector_origin_uuid self
               | None => false
               end
               && (transmission_destination_uuid t
                   =? vector_destination_uuid self))
            (transmissions s)).

End Vector.

(** ** class Node, with Agent and Source *)

(** What the arguments of [transmit] and the policy hooks may be. *)
#[local] Set Warnings "-register-all".
Inductive pyval : Type :=
| PNone
| PList (xs : list pyval)
| PClass (c : pyclass)
| PInfo (i : info)
| PNode (n : node)
| POther (repr : string).

Definition is_PNone (v : pyval) : bool :=
  match v with PNone => true | _ => false end.

(** [isinstance(v, list) and None in v] *)
Definition list_with_None (v : pyval) : bool :=
  match v with PList xs => existsb is_PNone xs | _ => false end.

(** The overridable methods of a node ([_what], [_to_whom], [update]),
    resolved on the class of [self]. *)
Record behaviour : Type := mk_behaviour {
  hook_what : node -> M world pyval;
  hook_to_whom : node -> M world pyval;
  hook_update : node -> list (option info) -> M world unit
}.

Module Node.

(** [isinstance(obj, cls)] for what a relationship attribute yields: a node
    row, or [None] when no row carries the key. *)
Definition isinstance (obj : option node) (cls : pyclass) : bool :=
  match obj with
  | Some n => issubclass (node_class n) cls
  | None => false
  end.

(** [def __repr__(self)] *)
Definition __repr__ (self : node) : string :=
  "Node-" ++ substring 0 6 (node_uuid self) ++ "-"
          ++ polymorphic_identity (node_class self).

(** [def kill(self)] *)
Definition kill (self : node) : M world unit :=
  modify (set_db (set_nodes
    (update_node (node_uuid self) (set_node_status dead)))) ;;;
  now <- timenow ;;
  modify (set_db (set_nodes
    (update_node (node_uuid self) (set_node_time_of_death (Some now))))).

(** [def fail(self)] *)
Definition fail (self : node) : M world unit :=
  modify (set_db (set_nodes
    (update_node (node_uuid self) (set_node_status failed)))) ;;;
  now <- timenow ;;
  modify (set_db (set_nodes
    (update_node (node_uuid self) (set_node_time_of_death (Some now))))).

(** [Vector.query.filter_by(origin=self).all()] and the [outgoing_vectors]
    backref. *)
Definition outgoing_vectors (self : node) (s : store) : list vector :=
  filter (fun v => vector_origin_uuid v =? node_uuid self) (vectors s).

(** [Vector.query.filter_by(destination=self).all()] and the
    [incoming_vectors] backref. *)
Definition incoming_vectors (self : node) (s : store) : list vector :=
  filter (fun v => vector_destination_uuid v =? node_uuid self) (vectors s).

(** [v.destination] and [v.origin] *)
Definition destination (v : vector) (s : store) : option node :=
  get_node (vector_destination_uuid v) s.

Definition origin (v : vector) (s : store) : option node :=
  get_node (vector_origin_uuid v) s.

(** The [successors] relationship through the [vector] table, and its
    backref [predecessors]: each related node once (the order of the
    collection is left open by the store; table order is used). *)
Definition successors (self : node) (s : store) : list node :=
  filter (fun n =>
            existsb (fun v => vector_destination_uuid v =? node_uuid n)
                    (outgoing_vectors self s))
         (nodes s).

Definition predecessors (self : node) (s : store) : list node :=
  filter (fun n =>
            existsb (fun v => vector_origin_uuid v =? node_uuid n)
                    (incoming_vectors self s))
         (nodes s).

(** The comprehension [[e for v in vs if isinstance(e, type)]], with [e] an
    attribute of [v]. *)
Definition select_instances (e : vector -> store -> option node)
    (type : pyclass) (vs : list vector) (s : store) : list node :=
  flat_map (fun v =>
              match e v s with
              | Some n => if isinstance (Some n) type then [n] else []
              | None => []
              end) vs.

(** [def downstream_nodes(self, type=None)], the function under the
    [@property] decorator. *)
Definition downstream_nodes_def (self : node) (type : option pyclass)
  : M world (list node) :=
  let type := match type with None => Node_class | Some c => c end in
  gets (fun w =>
    let outgoing_vectors := outgoing_vectors self (db w) in
    select_instances destination type outgoing_vectors (db w)).

(** [def upstream_nodes(self, type=None)], the function under the
    [@property] decorator; the comprehension reads [v.destination]. *)
Definition upstream_nodes_def (self : node) (type : option pyclass)
  : M world (list node) :=
  let type := match type with None => Node_class | Some c => c end in
  gets (fun w =>
    let incoming_vectors := incoming_vectors self (db w) in
    select_instances destination type incoming_vectors (db w)).

(** Reading the property calls the function with [self] alone. *)
Definition downstream_nodes (self : node) : M world (list node) :=
  downstream_nodes_def self None.

Definition upstream_nodes (self : node) : M world (list node) :=
  upstream_nodes_def self None.

(** [successors2]: the body prints, then calls the bare name
    [downstream_nodes], which is looked up in the module. *)
Definition successors2 (self : node) : M world (list node) :=
  print "successors2 is deprecated, use downstream_nodes instead" ;;;
  load_global "downstream_nodes" ;;;
  downstream_nodes_def self (Some Agent_class).

(** [predecessors2]: likewise with the bare name [upstream_nodes]. *)
Definition predecessors2 (self : node) : M world (list node) :=
  print "predecessors2 is deprecated, use upstream_nodes instead" ;;;
  load_global "upstream_nodes" ;;;
  upstream_nodes_def self (Some Agent_class).

(** [other_node in nodes]: mapped objects compare by identity, and the
    session holds one object per primary key. *)
Definition contains (other_node : node) (ns : list node) : bool :=
  existsb (fun n => node_uuid n =? node_uuid other_node) ns.

(** [def connect_to(self, other_node)], called on nodes that the session
    holds: the new vector joins the vector table.  (Line 121 appends the
    vector once more to the collection of [self] that the backref of line
    120 has already filled; the table, which is what the store shows, gets
    one row.) *)
Definition connect_to (self other_node : node) : M world vector :=
  u <- new_uuid ;;
  let vector :=
    mk_vector u (node_uuid self) (node_uuid other_node) vector_alive None in
  modify (set_db (set_vectors (fun vs => (vs ++ [vector])%list))) ;;;
  ret vector.

(** [def connect_from(self, other_node)], likewise. *)
Definition connect_from (self other_node : node) : M world vector :=
  u <- new_uuid ;;
  let vector :=
    mk_vector u (node_uuid other_node) (node_uuid self) vector_alive None in
  modify (set_db (set_vectors (fun vs => (vs ++ [vector])%list))) ;;;
  ret vector.

(** [def has_connection_to(self, other_node)] *)
Definition has_connection_to (self other_node : node) : M world bool :=
  ns <- successors2 self ;;
  ret (contains other_node ns).

(** [def has_connection_from(self, other_node)] *)
Definition has_connection_from (self other_node : node) : M world bool :=
  gets (fun w => contains other_node (predecessors self (db w))).

(** [str.format] of the values that reach the error messages. *)
Definition format (v : pyval) : string :=
  match v with
  | PNone => "None"
  | PList _ => "[...]"
  | PClass Node_class => "<class 'wallace.models.Node'>"
  | PClass Agent_class => "<class 'wallace.models.Agent'>"
  | PClass Source_class => "<class 'wallace.models.Source'>"
  | PClass Info_class => "<class 'wallace.models.Info'>"
  | PClass Other_class => "<class>"
  | PInfo i => Info.__repr__ i
  | PNode n => __repr__ n
  | POther repr => repr
  end.

(** [what.query.filter_by(origin_uuid=self.uuid)
         .order_by(desc(Info.creation_time)).all()] *)
Definition infos_of (self : node) (s : store) : list info :=
  sort_by (desc info_creation_time)
          (filter (fun i => info_origin_uuid i =? node_uuid self) (infos s)).

(** [t = Transmission(info=what, destination=to_whom);
     what.transmissions.append(t)]: the row takes its column defaults
    ([new_uuid], [timenow]) and joins the table. *)
Definition create_transmission (what : info) (to_whom : node) : M world unit :=
  u <- new_uuid ;;
  now <- timenow ;;
  let t := mk_transmission u (info_uuid what) now None (node_uuid to_whom) in
  modify (set_db (set_transmissions (fun ts => (ts ++ [t])%list))).

(** [def transmit(self, what=None, to_whom=None)].  The method calls itself;
    [depth] bounds the nesting of these calls as the interpreter's recursion
    limit does. *)
Fixpoint transmit (beh : behaviour) (depth : nat) (self : node)
    (what to_whom : pyval) {struct depth} : M world unit :=
  match depth with
  | 0 => raise (RuntimeError "maximum recursion depth exceeded")
  | S depth' =>
    match what with
    | PNone =>
      what <- hook_what beh self ;;
      if is_PNone what || list_with_None what
      then raise (ValueError "Your _what() method cannot return None.")
      else transmit beh depth' self what to_whom
    | PList ws =>
      for_each ws (fun w => transmit beh depth' self w to_whom)
    | PInfo i =>
      if negb (info_origin_uuid i =? node_uuid self)
      then raise (ValueError ("Cannot transmit because " ++ __repr__ self
                              ++ " is not the origin of " ++ Info.__repr__ i))
      else
        match to_whom with
        | PNone =>
          to_whom <- hook_to_whom beh self ;;
          if is_PNone to_whom || list_with_None to_whom
          then raise (ValueError "Your _to_whom() method cannot return None.")
          else transmit beh depth' self what to_whom
        | PList ws =>
          for_each ws (fun w => transmit beh depth' self what w)
        | PNode n =>
          connected <- has_connection_to self n ;;
          if negb connected
          then raise (ValueError ("You are trying to transmit from'"
                                  ++ __repr__ self ++ "' to '" ++ __repr__ n
                                  ++ "', but they are not connected"))
          else create_transmission i n
        | PClass c =>
          if issubclass c Node_class
          then
            to_whom <- gets (fun w =>
              PList (map PNode
                (filter (fun w' => isinstance (Some w') c)
                        (successors self (db w))))) ;;
            transmit beh depth' self what to_whom
          else raise (ValueError ("You are trying to transmit to '"
                                  ++ format to_whom
                                  ++ "', but it is not a Node"))
        | PInfo _ | POther _ =>
          raise (ValueError ("You are trying to transmit to '"
                             ++ format to_whom ++ "', but it is not a Node"))
        end
    | PClass c =>
      if issubclass c Info_class
      then
        infos <- gets (fun w => infos_of self (db w)) ;;
        transmit beh depth' self (PList (map PInfo infos)) to_whom
      else raise (ValueError ("You are trying to transmit '" ++ format what
                              ++ "', but it is not an Info"))
    | PNode _ | POther _ =>
      raise (ValueError ("You are trying to transmit '" ++ format what
                         ++ "', but it is not an Info"))
    end
  end.

(** [def _what(self)] and [def _to_whom(self)] of the base class. *)
Definition _what (self : node) : M world pyval := ret (PClass Info_class).

Definition _to_whom (self : node) : M world pyval := ret (PClass Node_class).

(** [def update(self, infos)] of the base class. *)
Definition update (self : node) (infos : list (option info)) : M world unit :=
  raise (NotImplementedError ("The update method of node '" ++ __repr__ self
                              ++ "' has not been overridden")).

(** [pending_transmissions]: destined for [self], [receive_time IS NULL],
    ordered by [transmit_time]. *)
Definition pending_transmissions (self : node) (s : store)
  : list transmission :=
  sort_by (asc transmission_transmit_time)
    (filter (fun t => is_None (transmission_receive_time t))
       (filter (fun t => transmission_destination_uuid t =? node_uuid self)
          (transmissions s))).

(** [incoming_transmissions] *)
Definition incoming_transmissions (self : node) (s : store)
  : list transmission :=
  sort_by (asc transmission_transmit_time)
    (filter (fun t => transmission_destination_uuid t =? node_uuid self)
       (transmissions s)).

(** [outgoing_transmissions]: the transmissions of the Infos that [self]
    authored, ordered by [transmit_time]. *)
Definition outgoing_transmissions (self : node) (s : store)
  : list transmission :=
  sort_by (asc transmission_transmit_time)
    (filter (fun t =>
               match Transmission.origin_uuid t s with
               | Some o => o =? node_uuid self
               | None => false
               end)
            (transmissions s)).

(** The body of the loop of [receive_all]. *)
Definition receive (transmission : transmission) : M world unit :=
  now <- timenow ;;
  modify (set_db (set_transmissions
    (update_transmission (transmission_uuid transmission)
       (set_transmission_receive_time (Some now))))) ;;;
  Transmission.mark_received transmission.

(** The call [self.update(infos)]: the invocation is recorded, then the
    method that the class of [self] provides runs. *)
Definition call_update (beh : behaviour) (self : node)
    (infos : list (option info)) : M world unit :=
  modify (fun w =>
    mk_world (db w) (clock w) (ticks w) (uuid4 w) (drawn w) (stdout w)
             (update_calls w ++ [(node_uuid self, infos)])%list) ;;;
  hook_update beh self infos.

(** [def receive_all(self)] *)
Definition receive_all (beh : behaviour) (self : node) : M world unit :=
  pending_transmissions <- gets (fun w => pending_transmissions self (db w)) ;;
  for_each pending_transmissions receive ;;;
  infos <- gets (fun w =>
    map (fun t => Transmission.info_ t (db w)) pending_transmissions) ;;
  call_update beh self infos.

(** [def outdegree(self)] and [def indegree(self)]: the length of the
    collection, taken as the session loads it from the vector table. *)
Definition outdegree (self : node) (s : store) : nat :=
  length (outgoing_vectors self s).


(** [@outdegree.expression] and [@indegree.expression], the class-level
    side of the hybrid properties:
    [select([func.count(Vector.destination_uuid)])
       .where(Vector.origin_uuid == Node.uuid)], and the mirror image. *)
Definition outdegree_expression (self : node) (s : store) : nat :=
  length (filter (fun v => vector_origin_uuid v =? node_uuid self)
                 (vectors s)).

Definition indegree_expression (self : node) (s : store) : nat :=
  length (filter (fun v => vector_destination_uuid v =? node_uuid self)
                 (vectors s)).

End Node.

Module Agent.

(** [def update(self, infos)] of [Agent]. *)
Definition update (self : node) (infos : list (option info)) : M world unit :=
  raise (NotImplementedError "").

End Agent.

(** The methods that the classes of [models.py] themselves provide. *)
Definition models_behaviour : behaviour :=
  mk_behaviour Node._what Node._to_whom
    (fun self infos =>
       if issubclass (node_class self) Agent_class
       then Agent.update self infos
       else Node.update self infos).

(** ** class Network *)

(** A loop that appends the value of each iteration to a list. *)
Fixpoint for_collect {S A B} (xs : list A) (body : A -> M S B)
  : M S (list B) :=
  match xs with
  | [] => ret []
  | x :: xs' =>
    y <- body x ;;
    ys <- for_collect xs' body ;;
    ret (y :: ys)
  end.

Module Network.

(** [Node.network == self] as the query evaluates it: the foreign key of the
    row equals the key of the network. *)
Definition in_network (self : network) (n : node) : bool :=
  match node_network_uuid n with
  | Some u => u =? network_uuid self
  | None => false
  end.

Definition status_is (st : node_status) (n : node) : bool :=
  match node_status_ n, st with
  | alive, alive | dead, dead | failed, failed => true
  | _, _ => false
  end.

(** The [agents] property. *)
Definition agents (self : network) (s : store) : list node :=
  sort_by (asc node_creation_time)
    (filter (fun n => negb (status_is dead n))
       (filter (in_network self)
          (filter (fun n => negb (status_is failed n))
             (filter (fun n => Node.isinstance (Some n) Agent_class)
                (nodes s))))).

(** The [sources] property. *)
Definition sources (self : network) (s : store) : list node :=
  sort_by (asc node_creation_time)
    (filter (in_network self)
       (filter (fun n => Node.isinstance (Some n) Source_class)
          (nodes s))).

(** The [nodes] property. *)
Definition nodes_ (self : network) (s : store) : list node :=
  (sources self s ++ agents self s)%list.

(** [def get_degrees(self)] *)
Definition get_degrees (self : network) (s : store) : list nat :=
  map (fun agent => Node.outdegree agent s) (agents self s).

(** [node.network = self] *)
Definition set_network (u : string) (self : network) : M world unit :=
  modify (set_db (set_nodes
    (update_node u (set_node_network_uuid (Some (network_uuid self)))))).


(** [def add_source_global(self, source)]; [vector.network] is the
    association proxy onto the network of the vector's origin. *)
Definition add_source_global (self : network) (source : node)
  : M world (list vector) :=
  agents <- gets (fun w => agents self (db w)) ;;
  vectors <- for_collect agents (fun agent => Node.connect_to source agent) ;;
  set_network (node_uuid source) self ;;;
  for_each vectors (fun vector =>
    set_network (vector_origin_uuid vector) self) ;;;
  ret vectors.

(** [def add_source_local(self, source, agent)] *)
Definition add_source_local (self : network) (source agent : node)
  : M world (list vector) :=
  set_network (node_uuid source) self ;;;
  vector <- Node.connect_to source agent ;;
  set_network (vector_origin_uuid vector) self ;;;
  ret [vector].


(** [ORDER BY origin_uuid, destination_uuid] *)
Definition by_endpoints (a b : vector) : bool :=
  if vector_origin_uuid a =? vector_origin_uuid b
  then (vector_destination_uuid a <=? vector_destination_uuid b)%string
  else (vector_origin_uuid a <=? vector_origin_uuid b)%string.

(** The [vectors] property; [Vector.network] is the network of the origin
    of the vector. *)
Definition vectors_ (self : network) (s : store) : list vector :=
  sort_by by_endpoints
    (filter (fun v =>
               existsb (fun n => (node_uuid n =? vector_origin_uuid v)
                                 && in_network self n)
                       (nodes s))
            (vectors s)).

(** [filter_by(participant_uuid=value)]: equality on a nullable column,
    [IS NULL] when the value is [None]. *)
Definition has_participant_uuid (participant_uuid : option string)
    (n : node) : bool :=
  match node_participant_uuid n, participant_uuid with
  | Some a, Some b => a =? b
  | None, None => true
  | _, _ => false
  end.

(** [def has_participant(self, participant_uuid)]; a mapped object is
    truthy, so [any(nodes)] tells whether the query returned a row. *)
Definition has_participant (self : network) (participant_uuid : option string)
    (s : store) : bool :=
  let nodes :=
    filter (in_network self)
      (filter (has_participant_uuid participant_uuid) (nodes s)) in
  existsb (fun _ => true) nodes.

End Network.

(** ** dallinger/db.py: the serializable-transaction wrapper *)

(** [try: c  except <any> as e: handler(e)] *)
Definition try_except {S A} (c : M S A) (handler : exn -> M S A) : M S A :=
  fun s =>
    match c s with
    | (s', Raise e) => handler e s'
    | r => r
    end.

(** [try: c  finally: f] *)
Definition try_finally {S A} (c : M S A) (f : M S unit) : M S A :=
  fun s =>
    match c s with
    | (s', r) =>
      match f s' with
      | (s'', Return _) => (s'', r)
      | (s'', Raise e) => (s'', Raise e)
      end
    end.

Module db.

Section Session.

(** The state that the session and the wrapped function act on. *)
Variable S : Type.

(** The operations of the scoped session that [db.py] calls. *)
Record session : Type := mk_session {
  connection : M S unit;
  commit : M S unit;
  rollback : M S unit;
  remove : M S unit
}.

Variable local_session : session.

(** [sessions_scope(local_session, commit)] around [body]: the body runs
    at the [yield]; leaving the body, also by [return], resumes the
    generator after it. *)
Definition sessions_scope {A} (commit_flag : bool) (body : M S A) : M S A :=
  try_finally
    (try_except
       (v <- body ;;
        (if commit_flag then commit local_session else ret tt) ;;;
        ret v)
       (fun e => rollback local_session ;;; raise e))
    (remove local_session).

(** [isinstance(exc.orig, TransactionRollbackError)] *)
Definition is_rollback (orig : dbapi_error) : bool :=
  match orig with
  | TransactionRollbackError => true
  | OtherDatabaseError _ => false
  end.

(** The [while attempts > 0] loop of [wrapper], entered with [attempts].
    [Some v] is [return func(...)]; [None] is what the wrapper returns when
    the loop ends and control falls off the end of the function. *)
Fixpoint attempt_loop {A} (func : M S A) (attempts : nat)
  : M S (option A) :=
  match attempts with
  | 0 => ret None
  | Datatypes.S attempts' =>
    try_except
      (connection local_session ;;;
       v <- sessions_scope true func ;;
       ret (Some v))
      (fun exc =>
         match exc with
         | OperationalError orig =>
           if is_rollback orig
           then
             if (0 <? attempts)%nat
             then attempt_loop func attempts'
             else raise (Exception
               "Could not commit serialized transaction after 100 attempts.")
           else raise exc
         | _ => raise exc
         end)
  end.

(** [def serialized(func)]: the wrapper it returns. *)
Definition serialized {A} (func : M S A) : M S (option A) :=
  attempt_loop func 100.

(** [def scoped_session_decorator(func)]: the wrapper it returns. *)
Definition scoped_session_decorator {A} (func : M S A) : M S A :=
  sessions_scope false func.

End Session.

(** The outbox kept in [session.info] and the messages handed to
    [redis.publish], in order.  [outbox = None] is a [session.info] without
    the key. *)
Definition message : Type := (string * string)%type.

Record bus : Type := mk_bus {
  outbox : option (list message);
  published : list message
}.

(** What [queue_message] ends in. *)
Inductive queued : Type :=
| Queued (b : bus)
| KeyError (key : string).

(** [def after_begin(session, transaction, connection)] *)
Definition after_begin (b : bus) : bus := mk_bus (Some []) (published b).

(** [def after_soft_rollback(session, previous_transaction)] *)
Definition after_soft_rollback (b : bus) : bus :=
  mk_bus (Some []) (published b).

(** [def queue_message(channel, message)] *)
Definition queue_message (channel msg : string) (b : bus) : queued :=
  match outbox b with
  | Some box => Queued (mk_bus (Some (box ++ [(channel, msg)])%list)
                               (published b))
  | None => KeyError "outbox"
  end.

(** [def after_commit(session)]: publishes [session.info.get('outbox', ())]
    and leaves the outbox as it is. *)
Definition after_commit (b : bus) : bus :=
  let box := match outbox b with Some box => box | None => [] end in
  mk_bus (outbox b) (published b ++ box)%list.

(** [queue_message] for each message of a list, stopping at the first
    failure. *)
Fixpoint queue_all (ms : list message) (b : bus) : queued :=
  match ms with
  | [] => Queued b
  | (channel, msg) :: ms' =>
    match queue_message channel msg b with
    | Queued b' => queue_all ms' b'
    | KeyError k => KeyError k
    end
  end.

End db.

(** ** Concrete worlds used to run the model *)

(** A clock that advances by one second per reading, in [DATETIME_FMT]. *)
Definition digit (k : nat) : string :=
  String (ascii_of_nat (48 + Nat.modulo k 10)) "".

Definition at_second (k : nat) : string :=
  "2015-03-01T10:00:" ++ digit (Nat.div k 10) ++ digit k ++ ".000000".

Definition sample_clock (k : nat) : string := at_second (20 + k).

Definition sample_uuid4 (k : nat) : string := "u" ++ digit k.

Definition world_of (s : store) : world :=
  mk_world s sample_clock 0 sample_uuid4 0 [] [].

Definition net : network := mk_network "net" "base" (at_second 0).

Definition A1 : node :=
  mk_node "a1" Agent_class (at_second 1) alive None (Some "net") None.

Definition A2 : node :=
  mk_node "a2" Agent_class (at_second 2) alive None (Some "net") None.

Definition S0 : node :=
  mk_node "s0" Source_class (at_second 3) alive None None None.

Definition failed_source : node :=
  mk_node "s1" Source_class (at_second 4) failed (Some (at_second 5))
          (Some "net") None.

Definition i1 : info := mk_info "i1" "base" "a1" (at_second 6) (Some "x").

(** An Info of A1 whose contents have not been assigned. *)
Definition blank_info : info := mk_info "i2" "base" "a1" (at_second 7) None.

(** Two agents in a network, a free-standing source, no vector. *)
Definition two_agents : world :=
  world_of (mk_store [A1; A2; S0] [] [net] [i1] [] []).

(** The same after [A1.connect_to(A2)]. *)
Definition two_agents_connected : world :=
  state_after (Node.connect_to A1 A2 two_agents).

(** A network whose only member is a failed source. *)
Definition with_failed_source : world :=
  world_of (mk_store [failed_source] [] [net] [] [] []).

(** A lone node that authored nothing and has no vector. *)
Definition lone_node : world :=
  world_of (mk_store [A1] [] [net] [] [] []).

(** Transmissions of [i1] to A2: two pending ones, stored out of transmit
    order, and one already received; and one pending for A1. *)
Definition t1 : transmission :=
  mk_transmission "t1" "i1" (at_second 11) None "a2".

Definition t2 : transmission :=
  mk_transmission "t2" "i1" (at_second 10) None "a2".

Definition t3 : transmission :=
  mk_transmission "t3" "i1" (at_second 9) (Some (at_second 12)) "a2".

Definition t4 : transmission :=
  mk_transmission "t4" "i1" (at_second 8) None "a1".

Definition with_transmissions : world :=
  world_of (mk_store [A1; A2; S0] [mk_vector "v0" "a1" "a2" vector_alive None]
              [net] [i1] [t1; t2; t3; t4] []).

(** The interpreter's default recursion limit. *)
Definition recursion_limit : nat := 1000.

(** A session whose operations always succeed, over a counter of the calls
    made to the wrapped function, and a function that meets a serialization
    conflict every time. *)
Definition quiet_session : db.session nat :=
  db.mk_session nat (ret tt) (ret tt) (ret tt) (ret tt).

Definition always_conflict : M nat unit :=
  fun calls => (S calls, Raise (OperationalError TransactionRollbackError)).

(** ** The properties under study, as predicates on the model *)

(** What [kill] and [fail] may change: two columns of the rows that carry the
    key of [self], and nothing else in the store. *)
Definition only_status_and_death_changed (self : node) (s s' : store)
  : Prop :=
  vectors s' = vectors s /\
  networks s' = networks s /\
  infos s' = infos s /\
  transmissions s' = transmissions s /\
  transformations s' = transformations s /\
  Forall2 (fun n n' =>
             node_uuid n' = node_uuid n /\
             node_class n' = node_class n /\
             node_creation_time n' = node_creation_time n /\
             node_network_uuid n' = node_network_uuid n /\
             node_participant_uuid n' = node_participant_uuid n /\
             (node_uuid n <> node_uuid self -> n' = n))
          (nodes s) (nodes s').

(** The accessors as the specification words them (and as the commented-out
    bodies of [successors2] and [predecessors2] compute them): the Agent
    destinations of the outgoing vectors, the Agent origins of the incoming
    vectors. *)
Definition agent_destinations_of_outgoing (self : node) (s : store)
  : list node :=
  Node.select_instances Node.destination Agent_class
    (Node.outgoing_vectors self s) s.

Definition agent_origins_of_incoming (self : node) (s : store) : list node :=
  Node.select_instances Node.origin Agent_class
    (Node.incoming_vectors self s) s.

(** Guarded lifecycle: a second [kill] changes nothing and [fail] after
    [kill] raises. *)
Definition guarded_lifecycle (self : node) (w : world) : Prop :=
  let u := node_uuid self in
  let w1 := state_after (Node.kill self w) in
  let w2 := state_after (Node.kill self w1) in
  option_map node_status_ (get_node u (db w1)) = Some dead /\
  option_map node_time_of_death (get_node u (db w1))
    = Some (Some (clock w (ticks w))) /\
  get_node u (db w2) = get_node u (db w1) /\
  exists e, outcome (Node.fail self w1) = Raise e.

(** [sources] as a query that drops failed nodes. *)
Definition sources_exclude_failed (self : network) (s : store) : Prop :=
  forall n,
    In n (Network.sources self s) <->
    In n (nodes s) /\
    Node.isinstance (Some n) Source_class = true /\
    Network.in_network self n = true /\
    node_status_ n <> failed.

(** A transmit whose content or recipients resolve to nothing raises. *)
Definition empty_resolution_raises (beh : behaviour) (self : node)
    (w : world) : Prop :=
  Node.infos_of self (db w) = [] \/ Node.successors self (db w) = [] ->
  exists e,
    outcome (Node.transmit beh recursion_limit self PNone PNone w) = Raise e.

(** [add_source_global] on a network of two agents: two vectors from the
    source, and a degree sequence of ones. *)
Definition global_source_gives_degree_one (self : network)
    (source a1 a2 : node) (w : world) : Prop :=
  Network.agents self (db w) = [a1; a2] ->
  let r := Network.add_source_global self source w in
  (exists v1 v2,
     outcome r = Return [v1; v2] /\
     vector_origin_uuid v1 = node_uuid source /\
     vector_destination_uuid v1 = node_uuid a1 /\
     vector_origin_uuid v2 = node_uuid source /\
     vector_destination_uuid v2 = node_uuid a2) /\
  Network.get_degrees self (db (state_after r)) = [1; 1].

(** The primary-key constraints of the tables that the proofs rely on. *)
Definition unique_node_keys (s : store) : Prop :=
  NoDup (map node_uuid (nodes s)).



(** The row that the loop of [receive_all], run over [pending] from clock
    reading [k], makes of row [t]: each iteration reads the clock twice and
    the second reading is the one that stays. *)
Fixpoint stamped_row (clock : nat -> string) (pending : list transmission)
    (k : nat) (t : transmission) : transmission :=
  match pending with
  | [] => t
  | p :: rest =>
    stamped_row clock rest (S (S k))
      (if transmission_uuid t =? transmission_uuid p
       then set_transmission_receive_time (Some (clock (S k))) t
       else t)
  end.

(** Referential integrity of the vector table: both ends of every vector
    are stored nodes. *)
Definition vectors_join_nodes (s : store) : Prop :=
  forall v, In v (vectors s) ->
    In (vector_origin_uuid v) (map node_uuid (nodes s)) /\
    In (vector_destination_uuid v) (map node_uuid (nodes s)).

(** What one pass through the body of the loop of [serialized] runs. *)
Definition attempt {S A} (sess : db.session S) (func : M S A) : M S A :=
  db.connection S sess ;;; db.sessions_scope S sess true func.

Definition conflict : exn := OperationalError TransactionRollbackError.

(** [k] attempts in a row end in a serialization conflict, from state [s],
    and the next one ends in state [s'] with [r]. *)
Fixpoint conflicts_then {S A} (run : M S A) (k : nat) (s s' : S)
    (r : result A) : Prop :=
  match k with
  | 0 => run s = (s', r)
  | Datatypes.S k' =>
    exists s1, run s = (s1, Raise conflict) /\ conflicts_then run k' s1 s' r
  end.

(** What the wrapper makes of the outcome of the attempt that ends the
    loop. *)
Definition wrapped {A} (r : result A) : result (option A) :=
  match r with
  | Return v => Return (Some v)
  | Raise e => Raise e
  end.

(** A function that meets two conflicts and then succeeds, over a counter
    of its calls. *)
Definition flaky : M nat string :=
  fun calls =>
    (S calls, if (calls <? 2)%nat then Raise conflict else Return "done").

(** A session that records the operations run on it, and a body that
    records itself and raises. *)
Definition recording_session : db.session (list string) :=
  db.mk_session (list string)
    (modify (fun l => l ++ ["connection"])%list)
    (modify (fun l => l ++ ["commit"])%list)
    (modify (fun l => l ++ ["rollback"])%list)
    (modify (fun l => l ++ ["remove"])%list).

Definition failing_body : M (list string) unit :=
  fun l => ((l ++ ["body"])%list, Raise (ValueError "boom")).

(** Every row of the node table is an instance of [Node]. *)
Definition rows_are_nodes (s : store) : Prop :=
  forall n, In n (nodes s) -> issubclass (node_class n) Node_class = true.

(** The vectors that [add_source_global] creates for the agents [ags], the
    first of them with the [k]-th key of the uuid source. *)
Fixpoint new_vectors (keys : nat -> string) (k : nat) (source : node)
    (ags : list node) : list vector :=
  match ags with
  | [] => []
  | a :: ags' =>
    mk_vector (keys k) (node_uuid source) (node_uuid a) vector_alive None
    :: new_vectors keys (S k) source ags'
  end.

(** The two agents joined by two parallel vectors. *)
Definition two_agents_twice : world :=
  state_after (Node.connect_to A1 A2 two_agents_connected).

(** What wiring a node into network [N] may do to a node row: nothing, or
    set its network to [N]. *)
Definition same_or_joined (N : network) (n n' : node) : Prop :=
  n' = n \/ n' = set_node_network_uuid (Some (network_uuid N)) n.

(** A recording session whose [commit] fails, and a body that records
    itself and returns. *)
Definition failing_commit_session : db.session (list string) :=
  db.mk_session (list string)
    (modify (fun l => l ++ ["connection"])%list)
    (fun l => ((l ++ ["commit"])%list,
               Raise (OperationalError (OtherDatabaseError "server closed"))))
    (modify (fun l => l ++ ["rollback"])%list)
    (modify (fun l => l ++ ["remove"])%list).

Definition quiet_body : M (list string) nat :=
  fun l => ((l ++ ["body"])%list, Return 7).

(** A transmission of [i1] to A2 in a store without any vector. *)
Definition with_loose_transmission : world :=
  world_of (mk_store [A1; A2; S0] [] [net] [i1] [t1] []).

(** A session and a function made to count the calls of the function
    beside the state they act on. *)
Definition beside_counter {S A} (m : M S A) : M (S * nat) A :=
  fun sc =>
    match m (fst sc) with
    | (s', r) => ((s', snd sc), r)
    end.

Definition counted {S A} (func : M S A) : M (S * nat) A :=
  fun sc =>
    match func (fst sc) with
    | (s', r) => ((s', Datatypes.S (snd sc)), r)
    end.

Definition session_beside_counter {S} (sess : db.session S)
  : db.session (S * nat) :=
  db.mk_session (S * nat)
    (beside_counter (db.connection S sess))
    (beside_counter (db.commit S sess))
    (beside_counter (db.rollback S sess))
    (beside_counter (db.remove S sess)).

(** Content that [transmit] resolves to nothing on store [s]: an empty
    list, or an unset [what] or a class of Info when the node authored no
    Info. *)
Definition no_content (self : node) (s : store) (what : pyval) : Prop :=
  what = PList [] \/
  ((what = PNone \/
    exists c, what = PClass c /\ issubclass c Info_class = true) /\
   Node.infos_of self s = []).

(** Content that resolves to Infos of the node itself. *)
Definition own_content (self : node) (what : pyval) : Prop :=
  what = PNone \/
  (exists c, what = PClass c /\ issubclass c Info_class = true) \/
  (exists i, what = PInfo i /\ info_origin_uuid i = node_uuid self) \/
  (exists ys, what = PList (map PInfo ys) /\
              Forall (fun i => info_origin_uuid i = node_uuid self) ys).

(** Recipients that [transmit] resolves to nobody on store [s]: an empty
    list, an unset [to_whom] when the node has no successor, or a class of
    Node that no successor is an instance of. *)
Definition nobody (self : node) (s : store) (to_whom : pyval) : Prop :=
  to_whom = PList [] \/
  (to_whom = PNone /\ Node.successors self s = []) \/
  (exists c, to_whom = PClass c /\ issubclass c Node_class = true /\
             filter (fun n => Node.isinstance (Some n) c)
                    (Node.successors self s) = []).

(** A stored source and a network without agents. *)
Definition lone_source : world :=
  world_of (mk_store [S0] [] [net] [] [] []).

(** ** Sorting *)

Section Sorting.

Context {A : Type} (le : A -> A -> bool).

Hypothesis le_total : forall a b, le a b = true \/ le b a = true.

Let R (a b : A) : Prop := le a b = true.

Lemma insert_by_perm (x : A) (l : list A) :
  Permutation (insert_by le x l) (x :: l).
Proof.
  induction l as [|y l IH]; cbn.
  - apply Permutation_refl.
  - destruct (le x y).
    + apply Permutation_refl.
    + eapply perm_trans; [apply perm_skip, IH | apply perm_swap].
Qed.

Lemma sort_by_perm (l : list A) : Permutation (sort_by le l) l.
Proof.
  induction l as [|x l IH]; cbn.
  - constructor.
  - eapply perm_trans; [apply insert_by_perm | apply perm_skip, IH].
Qed.

Lemma sort_by_In (l : list A) (x : A) : In x (sort_by le l) <-> In x l.
Proof.
  split; apply Permutation_in;
    [apply sort_by_perm | apply Permutation_sym, sort_by_perm].
Qed.

Lemma insert_by_HdRel (x a : A) (l : list A) :
  R a x -> HdRel R a l -> HdRel R a (insert_by le x l).
Proof.
  intros Hax Hl. destruct l as [|y l]; cbn.
  - now constructor.
  - destruct (le x y); constructor; auto. now inversion Hl.
Qed.

Lemma insert_by_sorted (x : A) (l : list A) :
  Sorted R l -> Sorted R (insert_by le x l).
Proof.
  induction 1 as [|y l Hs IH Hhd]; cbn.
  - repeat constructor.
  - destruct (le x y) eqn:Hxy.
    + constructor; [now constructor | now constructor].
    + constructor; [exact IH |].
      apply insert_by_HdRel; [| exact Hhd].
      destruct (le_total x y) as [H|H]; [congruence | exact H].
Qed.

Lemma sort_by_sorted (l : list A) : Sorted R (sort_by le l).
Proof.
  induction l as [|x l IH]; cbn.
  - constructor.
  - now apply insert_by_sorted.
Qed.

End Sorting.

Lemma asc_total {A} (key : A -> string) (a b : A) :
  asc key a b = true \/ asc key b a = true.
Proof. unfold asc. apply String.leb_total. Qed.

(** ** Rows and keys *)

Lemma filter_twice {A} (p q : A -> bool) (l : list A) :
  filter q (filter p l) = filter (fun x => p x && q x) l.
Proof.
  induction l as [|x l IH]; [reflexivity |]. simpl.
  destruct (p x); simpl; [destruct (q x); now rewrite IH | exact IH].
Qed.

Lemma update_node_uuid (u : string) (f : node -> node) (l : list node) :
  (forall n, node_uuid (f n) = node_uuid n) ->
  map node_uuid (update_node u f l) = map node_uuid l.
Proof.
  intros Hf. unfold update_node. rewrite map_map. apply map_ext.
  intros n. destruct (node_uuid n =? u); auto.
Qed.

Lemma find_update_node (u : string) (f : node -> node) (l : list node) :
  (forall n, node_uuid (f n) = node_uuid n) ->
  find (fun n => node_uuid n =? u) (update_node u f l)
  = option_map f (find (fun n => node_uuid n =? u) l).
Proof.
  intros Hf. induction l as [|n l IH]; cbn; [reflexivity |].
  destruct (node_uuid n =? u) eqn:E.
  - now rewrite Hf, E.
  - now rewrite E.
Qed.

Lemma update_node_frame (u : string) (f : node -> node) (P : node -> node -> Prop)
    (l : list node) :
  (forall n, P n n) ->
  (forall n, node_uuid n = u -> P n (f n)) ->
  Forall2 P l (update_node u f l).
Proof.
  intros Hid Hf. induction l as [|n l IH]; cbn; constructor; auto.
  destruct (node_uuid n =? u) eqn:E; auto.
  apply Hf. now apply String.eqb_eq.
Qed.

Lemma update_node_twice (u : string) (f g : node -> node) (l : list node) :
  (forall n, node_uuid (g n) = node_uuid n) ->
  update_node u f (update_node u g l) = update_node u (fun n => f (g n)) l.
Proof.
  intros Hg. unfold update_node. rewrite map_map. apply map_ext.
  intros n. destruct (node_uuid n =? u) eqn:E.
  - now rewrite Hg, E.
  - now rewrite E.
Qed.
(** C1.  Write-once contents: on an Info whose contents are still null, the
    assignment of a non-null value [v] succeeds and stores [v]; from then on
    every assignment (of [v] again, of another value, of null) raises the
    write-once [ValueError] and leaves the Info as it was. *)
Theorem Info_contents_write_once :
  forall (i : info) (v : string),
    info_contents i = None ->
    let r := Info.set_contents (Some v) i in
    outcome r = Return tt /\
    info_contents (state_after r) = Some v /\
    forall value : option string,
      Info.set_contents value (state_after r) =
      (state_after r,
       Raise (ValueError "The contents of an info is write-once.")).
Proof.
  intros i v Hnull.
  unfold Info.set_contents, Info._write_once, Info.getattr, bind; cbn.
  rewrite Hnull; cbn.
  repeat split.
Qed.

Lemma Info_contents_write_once_witness :
  info_contents blank_info = None /\
  info_contents (state_after (Info.set_contents (Some "x") blank_info))
    = Some "x" /\
  Info.set_contents (Some "x")
    (state_after (Info.set_contents (Some "x") blank_info))
  = (state_after (Info.set_contents (Some "x") blank_info),
     Raise (ValueError "The contents of an info is write-once.")).
Proof.
  destruct (Info_contents_write_once blank_info "x" eq_refl)
    as (_ & Hstored & Hagain).
  split; [reflexivity | split; [exact Hstored | apply Hagain]].
Defined.

(** ** Node lifecycle *)

Lemma kill_steps (self : node) (w : world) :
  Node.kill self w =
  (mk_world
     (set_nodes
        (update_node (node_uuid self)
           (set_node_time_of_death (Some (clock w (ticks w)))))
        (set_nodes (update_node (node_uuid self) (set_node_status dead))
           (db w)))
     (clock w) (S (ticks w)) (uuid4 w) (drawn w) (stdout w) (update_calls w),
   Return tt).
Proof. reflexivity. Qed.

Lemma fail_steps (self : node) (w : world) :
  Node.fail self w =
  (mk_world
     (set_nodes
        (update_node (node_uuid self)
           (set_node_time_of_death (Some (clock w (ticks w)))))
        (set_nodes (update_node (node_uuid self) (set_node_status failed))
           (db w)))
     (clock w) (S (ticks w)) (uuid4 w) (drawn w) (stdout w) (update_calls w),
   Return tt).
Proof. reflexivity. Qed.

Lemma get_node_after_stamp (u : string) (st : node_status) (t : string)
    (s : store) :
  get_node u
    (set_nodes (update_node u (set_node_time_of_death (Some t)))
       (set_nodes (update_node u (set_node_status st)) s))
  = option_map
      (fun n => set_node_time_of_death (Some t) (set_node_status st n))
      (get_node u s).
Proof.
  unfold get_node; cbn.
  rewrite !find_update_node by reflexivity.
  now destruct (find _ (nodes s)).
Qed.

(** C4 (as the code has it).  [kill] sets the status to dead and stamps
    time_of_death with the clock reading of the call.  Neither method is
    guarded: a second [kill] returns normally, keeps the status dead and
    stamps time_of_death again with the reading of the second call, and
    [fail] after [kill] returns normally, sets the status to failed and
    stamps time_of_death again. *)
Theorem Node_kill_fail_unguarded :
  forall (w : world) (self n : node),
    get_node (node_uuid self) (db w) = Some n ->
    let u := node_uuid self in
    let r1 := Node.kill self w in
    let r2 := Node.kill self (state_after r1) in
    let r3 := Node.fail self (state_after r1) in
    outcome r1 = Return tt /\
    get_node u (db (state_after r1))
      = Some (mk_node (node_uuid n) (node_class n) (node_creation_time n)
                dead (Some (clock w (ticks w)))
                (node_network_uuid n) (node_participant_uuid n)) /\
    outcome r2 = Return tt /\
    get_node u (db (state_after r2))
      = Some (mk_node (node_uuid n) (node_class n) (node_creation_time n)
                dead (Some (clock w (S (ticks w))))
                (node_network_uuid n) (node_participant_uuid n)) /\
    outcome r3 = Return tt /\
    get_node u (db (state_after r3))
      = Some (mk_node (node_uuid n) (node_class n) (node_creation_time n)
                failed (Some (clock w (S (ticks w))))
                (node_network_uuid n) (node_participant_uuid n)).
Proof.
  intros w self n Hn u r1 r2 r3.
  subst r1 r2 r3 u.
  rewrite (kill_steps self w); unfold state_after, outcome; cbn [fst snd].
  rewrite kill_steps, fail_steps; cbn [fst snd db clock ticks].
  rewrite !get_node_after_stamp, Hn. cbn.
  repeat split.
Qed.

Lemma Node_kill_fail_unguarded_witness :
  get_node (node_uuid A1) (db two_agents) = Some A1 /\
  option_map node_time_of_death
    (get_node (node_uuid A1) (db (state_after (Node.kill A1 two_agents))))
    = Some (Some (at_second 20)) /\
  option_map node_time_of_death
    (get_node (node_uuid A1)
       (db (state_after
              (Node.kill A1 (state_after (Node.kill A1 two_agents))))))
    = Some (Some (at_second 21)) /\
  outcome (Node.fail A1 (state_after (Node.kill A1 two_agents))) = Return tt.
Proof.
  destruct (Node_kill_fail_unguarded two_agents A1 A1 eq_refl)
    as (_ & H1 & _ & H2 & H3 & _).
  split; [reflexivity |].
  split; [now rewrite H1 |].
  split; [now rewrite H2 | exact H3].
Defined.

(** C4 as stated fails on a live agent: the second [kill] moves
    time_of_death, and [fail] after [kill] raises nothing. *)
Lemma guarded_lifecycle_fails : ~ guarded_lifecycle A1 two_agents.
Proof.
  intros (_ & _ & Hsame & _).
  vm_compute in Hsame. discriminate Hsame.
Qed.

(** C10.  [kill] and [fail] leave every table but [node] as it was, and in
    [node] they leave every row with another key untouched and change, in
    the rows of [self], neither uuid, class, creation time, network nor
    participant; so no vector, transmission, transformation or info is
    affected. *)
Theorem Node_kill_fail_frame :
  forall (w : world) (self : node),
    only_status_and_death_changed self
      (db w) (db (state_after (Node.kill self w))) /\
    only_status_and_death_changed self
      (db w) (db (state_after (Node.fail self w))).
Proof.
  intros w self.
  rewrite kill_steps, fail_steps. unfold state_after; cbn [fst db].
  split; (repeat (split; [reflexivity |])); cbn [nodes set_nodes];
    rewrite update_node_twice by reflexivity;
    apply update_node_frame.
  all: intros n; try intros Hu; cbn; repeat split; auto; congruence.
Qed.

(** ** The serializable-transaction wrapper *)

Lemma attempt_loop_all_conflicts {S A} (sess : db.session S) (func : M S A) :
  (forall s,
      outcome ((db.connection S sess ;;;
                v <- db.sessions_scope S sess true func ;; ret (Some v)) s)
      = Raise (OperationalError TransactionRollbackError)) ->
  forall attempts s,
    outcome (db.attempt_loop S sess func attempts s) = Return None.
Proof.
  intros Hconf attempts.
  induction attempts as [|k IH]; intros s; [reflexivity |].
  cbn [db.attempt_loop]. unfold try_except.
  specialize (Hconf s). unfold outcome in Hconf.
  destruct ((db.connection S sess ;;; _) s) as [s' r]; cbn in Hconf.
  subst r. cbn. apply IH.
Qed.

(** C6 (the code at the failing input).  When every attempt ends in a
    serialization conflict, the wrapper calls the function one hundred times
    and then returns [None]: no exception reaches the caller. *)
Theorem serialized_gives_up_silently :
  db.serialized nat quiet_session always_conflict 0 = (100, Return None).
Proof. vm_compute. reflexivity. Qed.

(** ** Connections *)

Lemma successors2_raises (self : node) (w : world) :
  outcome (Node.successors2 self w)
  = Raise (NameError "global name 'downstream_nodes' is not defined").
Proof. reflexivity. Qed.

Lemma has_connection_to_raises (self other_node : node) (w : world) :
  outcome (Node.has_connection_to self other_node w)
  = Raise (NameError "global name 'downstream_nodes' is not defined").
Proof. reflexivity. Qed.

Lemma for_each_keeps_store {A} (xs : list A) (body : A -> M world unit) :
  (forall x w, db (state_after (body x w)) = db w) ->
  forall w, db (state_after (for_each xs body w)) = db w.
Proof.
  intros Hbody. induction xs as [|x xs IH]; intros w; [reflexivity |].
  cbn [for_each]. unfold bind. specialize (Hbody x w).
  destruct (body x w) as [w' [[]|e]]; cbn in Hbody.
  - now rewrite IH.
  - exact Hbody.
Qed.

(** As [has_connection_to] stands, no call of [transmit] with the hooks of
    [models.py] changes the store: no transmission is ever created. *)
Lemma transmit_keeps_store (depth : nat) :
  forall (self : node) (what to_whom : pyval) (w : world),
    db (state_after
          (Node.transmit models_behaviour depth self what to_whom w))
    = db w.
Proof.
  induction depth as [|depth IH]; intros self what to_whom w;
    [reflexivity |].
  destruct what as [|ws|c|i|n|r]; cbn [Node.transmit].
  - unfold bind at 1. cbn. apply IH.
  - apply for_each_keeps_store. intros x v. apply IH.
  - destruct (issubclass c Info_class); [| reflexivity].
    unfold bind at 1, gets at 1. apply IH.
  - destruct (negb (info_origin_uuid i =? node_uuid self)); [reflexivity |].
    destruct to_whom as [|ws|c|i'|n|r]; try reflexivity.
    + unfold bind at 1. cbn. apply IH.
    + apply for_each_keeps_store. intros x v. apply IH.
    + destruct (issubclass c Node_class); [| reflexivity].
      unfold bind at 1, gets at 1. apply IH.
  - reflexivity.
  - reflexivity.
Qed.

(** C3 (the code at the failing input).  With or without a vector from A1
    to A2, [A1.transmit(what=i1, to_whom=A2)] ends in the [NameError] that
    [successors2] raises, and no transmission is created. *)
Theorem transmit_to_node_raises_NameError :
  Node.outgoing_vectors A1 (db two_agents) = [] /\
  outcome (Node.transmit models_behaviour recursion_limit A1
             (PInfo i1) (PNode A2) two_agents)
    = Raise (NameError "global name 'downstream_nodes' is not defined") /\
  Node.outgoing_vectors A1 (db two_agents_connected)
    = [mk_vector "u0" "a1" "a2" vector_alive None] /\
  outcome (Node.transmit models_behaviour recursion_limit A1
             (PInfo i1) (PNode A2) two_agents_connected)
    = Raise (NameError "global name 'downstream_nodes' is not defined") /\
  transmissions
    (db (state_after
           (Node.transmit models_behaviour recursion_limit A1
              (PInfo i1) (PNode A2) two_agents_connected))) = [].
Proof. vm_compute. repeat split. Qed.

(** C9 (the code at the failing input).  With one vector, from agent A1 to
    agent A2: the deprecated accessors raise [NameError] where the new ones
    return a list, and [upstream_nodes] of A2, also when restricted to
    agents, yields A2 itself, the destination of the incoming vector, not
    its origin A1. *)
Theorem accessors_differ :
  agent_destinations_of_outgoing A1 (db two_agents_connected) = [A2] /\
  outcome (Node.downstream_nodes A1 two_agents_connected) = Return [A2] /\
  outcome (Node.successors2 A1 two_agents_connected)
    = Raise (NameError "global name 'downstream_nodes' is not defined") /\
  agent_origins_of_incoming A2 (db two_agents_connected) = [A1] /\
  outcome (Node.upstream_nodes A2 two_agents_connected) = Return [A2] /\
  outcome (Node.upstream_nodes_def A2 (Some Agent_class)
             two_agents_connected) = Return [A2] /\
  outcome (Node.predecessors2 A2 two_agents_connected)
    = Raise (NameError "global name 'upstream_nodes' is not defined").
Proof. vm_compute. repeat split. Qed.

(** ** Network membership *)

(** C7 (as the code has it).  [sources] holds exactly the Source rows of the
    network, whatever their status, ordered by creation time; [agents] holds
    the Agent rows of the network that are neither failed nor dead. *)
Theorem Network_sources_ignore_status :
  forall (self : network) (s : store),
    (forall n,
        In n (Network.sources self s) <->
        In n (nodes s) /\
        Node.isinstance (Some n) Source_class = true /\
        Network.in_network self n = true) /\
    Sorted (fun a b =>
              (node_creation_time a <=? node_creation_time b)%string = true)
           (Network.sources self s) /\
    Permutation
      (Network.sources self s)
      (filter (fun n => Node.isinstance (Some n) Source_class
                        && Network.in_network self n) (nodes s)) /\
    (forall n,
        In n (Network.agents self s) <->
        In n (nodes s) /\
        Node.isinstance (Some n) Agent_class = true /\
        Network.in_network self n = true /\
        node_status_ n <> failed /\ node_status_ n <> dead).
Proof.
  intros self s. unfold Network.sources, Network.agents.
  split; [| split; [| split]].
  - intros n. rewrite sort_by_In, !filter_In. tauto.
  - apply (sort_by_sorted (asc node_creation_time)). apply asc_total.
  - eapply perm_trans; [apply sort_by_perm |].
    rewrite filter_twice. apply Permutation_refl.
  - intros n. rewrite sort_by_In, !filter_In.
    unfold Network.status_is. rewrite !negb_true_iff.
    destruct (node_status_ n); intuition congruence.
Qed.

(** C7 as stated fails: a failed source of the network is listed. *)
Lemma sources_exclude_failed_fails :
  ~ sources_exclude_failed net (db with_failed_source).
Proof.
  intros H. destruct (H failed_source) as [Hin _].
  assert (Hl : In failed_source
                 (Network.sources net (db with_failed_source)))
    by (vm_compute; auto).
  destruct (Hin Hl) as (_ & _ & _ & Hst). now apply Hst.
Qed.

(** ** Wiring a source to every agent *)

Lemma unique_key_row (l : list node) (a b : node) :
  NoDup (map node_uuid l) -> In a l -> In b l ->
  node_uuid a = node_uuid b -> a = b.
Proof.
  induction l as [|x l IH]; cbn; [contradiction |].
  intros Hnd Ha Hb Hab. inversion Hnd as [|? ? Hx Hl]; subst.
  destruct Ha as [<-|Ha], Hb as [<-|Hb]; auto.
  - exfalso. apply Hx. rewrite Hab. now apply in_map.
  - exfalso. apply Hx. rewrite <- Hab. now apply in_map.
Qed.

Lemma filter_update_node (u : string) (f : node -> node) (p : node -> bool)
    (l : list node) :
  (forall n, In n l -> node_uuid n = u -> p n = false /\ p (f n) = false) ->
  filter p (update_node u f l) = filter p l.
Proof.
  induction l as [|x l IH]; intros H; [reflexivity |].
  cbn [update_node map filter]. fold (update_node u f l).
  rewrite IH by (intros n Hn; apply H; now right).
  destruct (node_uuid x =? u) eqn:E; [| reflexivity].
  apply String.eqb_eq in E.
  destruct (H x (or_introl eq_refl) E) as [-> ->]. reflexivity.
Qed.

Lemma agents_in (self : network) (s : store) (a : node) :
  In a (Network.agents self s) ->
  In a (nodes s) /\ issubclass (node_class a) Agent_class = true.
Proof.
  unfold Network.agents. rewrite sort_by_In, !filter_In. cbn. tauto.
Qed.

Lemma outgoing_after_connect (a : node) (s : store) (vs : list vector) :
  Forall (fun v => vector_origin_uuid v <> node_uuid a) vs ->
  filter (fun v => vector_origin_uuid v =? node_uuid a) (vectors s ++ vs)
  = Node.outgoing_vectors a s.
Proof.
  intros H. rewrite filter_app. unfold Node.outgoing_vectors.
  replace (filter _ vs) with (@nil vector); [now rewrite app_nil_r |].
  induction H as [|v vs Hv _ IH]; [reflexivity |]. cbn.
  apply String.eqb_neq in Hv. now rewrite Hv.
Qed.

(** C8 (as the code has it).  In a network whose agents are A1 and A2,
    [add_source_global(S)] with S a stored Source creates and returns two
    vectors, S to A1 and S to A2, and leaves the agents and their out-degrees
    as they were: the new vectors leave S, so they count for no agent. *)
Theorem add_source_global_keeps_degrees :
  forall (w : world) (self : network) (source a1 a2 : node),
    unique_node_keys (db w) ->
    In source (nodes (db w)) ->
    node_class source = Source_class ->
    Network.agents self (db w) = [a1; a2] ->
    let r := Network.add_source_global self source w in
    let v1 := mk_vector (uuid4 w (drawn w)) (node_uuid source)
                        (node_uuid a1) vector_alive None in
    let v2 := mk_vector (uuid4 w (S (drawn w))) (node_uuid source)
                        (node_uuid a2) vector_alive None in
    outcome r = Return [v1; v2] /\
    vectors (db (state_after r)) = (vectors (db w) ++ [v1; v2])%list /\
    Network.agents self (db (state_after r)) = [a1; a2] /\
    Network.get_degrees self (db (state_after r))
      = Network.get_degrees self (db w).
Proof.
  intros w self source a1 a2 Hkeys Hsrc Hcls Hag r v1 v2.
  assert (Hne : forall a, In a [a1; a2] -> node_uuid source <> node_uuid a).
  { intros a Ha Heq. rewrite <- Hag in Ha.
    destruct (agents_in _ _ _ Ha) as [Hin Hsub].
    rewrite <- (unique_key_row _ _ _ Hkeys Hsrc Hin Heq), Hcls in Hsub.
    discriminate Hsub. }
  assert (Hr : r =
    (mk_world
       (mk_store
          (update_node (node_uuid source)
             (fun n => set_node_network_uuid (Some (network_uuid self))
                         (set_node_network_uuid (Some (network_uuid self))
                            (set_node_network_uuid
                               (Some (network_uuid self)) n)))
             (nodes (db w)))
          (vectors (db w) ++ [v1; v2])%list (networks (db w)) (infos (db w))
          (transmissions (db w)) (transformations (db w)))
       (clock w) (ticks w) (uuid4 w) (S (S (drawn w))) (stdout w)
       (update_calls w),
     Return [v1; v2])).
  { subst r. unfold Network.add_source_global, bind, gets.
    rewrite Hag. cbn. unfold ret, set_db, set_nodes, set_vectors. cbn.
    rewrite <- app_assoc.
    rewrite !update_node_twice by reflexivity. reflexivity. }
  rewrite Hr. unfold state_after, outcome; cbn [fst snd db].
  assert (Hsame : forall s', nodes s' =
            update_node (node_uuid source)
              (fun n => set_node_network_uuid (Some (network_uuid self))
                          (set_node_network_uuid (Some (network_uuid self))
                             (set_node_network_uuid
                                (Some (network_uuid self)) n)))
              (nodes (db w)) ->
            Network.agents self s' = [a1; a2]).
  { intros s' Hs'. rewrite <- Hag. unfold Network.agents. rewrite Hs'.
    rewrite filter_update_node; [reflexivity |].
    intros n Hn Hu.
    rewrite (unique_key_row _ _ _ Hkeys Hn Hsrc Hu).
    cbn. rewrite Hcls. split; reflexivity. }
  split; [reflexivity |]. split; [reflexivity |].
  split; [now apply Hsame |].
  unfold Network.get_degrees. rewrite Hsame by reflexivity. rewrite Hag.
  apply map_ext_in. intros a Ha.
  unfold Node.outdegree. f_equal.
  unfold Node.outgoing_vectors at 1; cbn [vectors].
  apply outgoing_after_connect.
  repeat constructor; cbn; now apply Hne.
Qed.

Lemma add_source_global_keeps_degrees_witness :
  unique_node_keys (db two_agents) /\
  In S0 (nodes (db two_agents)) /\
  node_class S0 = Source_class /\
  Network.agents net (db two_agents) = [A1; A2] /\
  outcome (Network.add_source_global net S0 two_agents)
    = Return [mk_vector "u0" "s0" "a1" vector_alive None;
              mk_vector "u1" "s0" "a2" vector_alive None] /\
  Network.get_degrees net
    (db (state_after (Network.add_source_global net S0 two_agents)))
    = [0; 0].
Proof.
  assert (Hk : unique_node_keys (db two_agents)).
  { unfold unique_node_keys; cbn.
    repeat constructor; cbn; intuition discriminate. }
  assert (Hin : In S0 (nodes (db two_agents))) by (cbn; auto).
  assert (Hag : Network.agents net (db two_agents) = [A1; A2])
    by reflexivity.
  destruct (add_source_global_keeps_degrees
              two_agents net S0 A1 A2 Hk Hin eq_refl Hag)
    as (Hout & _ & _ & Hdeg).
  split; [exact Hk |]. split; [exact Hin |]. split; [reflexivity |].
  split; [exact Hag |]. split; [exact Hout |].
  rewrite Hdeg. reflexivity.
Defined.

(** C8 as stated fails: with no vector between the agents, the degree
    sequence after [add_source_global] is [0, 0]. *)
Lemma global_source_gives_degree_one_fails :
  ~ global_source_gives_degree_one net S0 A1 A2 two_agents.
Proof.
  intros H. destruct (H eq_refl) as [_ Hdeg].
  vm_compute in Hdeg. discriminate Hdeg.
Qed.

(** ** Transmit when there is nothing to send or nobody to send to *)

Lemma for_each_silent {S A} (xs : list A) (body : A -> M S unit) (s : S) :
  (forall x, In x xs -> body x s = (s, Return tt)) ->
  for_each xs body s = (s, Return tt).
Proof.
  induction xs as [|x xs IH]; intros H; [reflexivity |].
  cbn [for_each]. unfold bind. rewrite (H x) by now left.
  apply IH. intros y Hy. apply H. now right.
Qed.

Lemma infos_of_origin (self : node) (s : store) (i : info) :
  In i (Node.infos_of self s) -> info_origin_uuid i = node_uuid self.
Proof.
  unfold Node.infos_of. rewrite sort_by_In, filter_In.
  intros [_ H]. now apply String.eqb_eq.
Qed.

Lemma transmit_info_no_successor (depth : nat) (self : node) (i : info)
    (w : world) :
  info_origin_uuid i = node_uuid self ->
  Node.successors self (db w) = [] ->
  Node.transmit models_behaviour (3 + depth) self (PInfo i) PNone w
  = (w, Return tt).
Proof.
  intros Ho Hs. cbn [Node.transmit Nat.add].
  rewrite Ho, String.eqb_refl. cbn [negb].
  unfold bind at 1. cbn [hook_to_whom models_behaviour Node._to_whom ret].
  cbn [is_PNone list_with_None orb issubclass pyclass_eqb].
  unfold bind, gets. rewrite Hs. reflexivity.
Qed.

Lemma transmit_info_to_nobody (depth : nat) (self : node) (i : info)
    (to_whom : pyval) (w : world) :
  info_origin_uuid i = node_uuid self ->
  nobody self (db w) to_whom ->
  Node.transmit models_behaviour (3 + depth) self (PInfo i) to_whom w
  = (w, Return tt).
Proof.
  intros Ho [-> | [[-> Hs] | (c & -> & Hc & Hs)]].
  - cbn [Node.transmit Nat.add]. rewrite Ho, String.eqb_refl. reflexivity.
  - now apply transmit_info_no_successor.
  - cbn [Node.transmit Nat.add]. rewrite Ho, String.eqb_refl. cbn [negb].
    rewrite Hc. unfold bind, gets. rewrite Hs. reflexivity.
Qed.

Lemma transmit_infos_to_nobody (depth : nat) (self : node) (ys : list info)
    (to_whom : pyval) (w : world) :
  Forall (fun i => info_origin_uuid i = node_uuid self) ys ->
  nobody self (db w) to_whom ->
  Node.transmit models_behaviour (4 + depth) self (PList (map PInfo ys))
    to_whom w
  = (w, Return tt).
Proof.
  intros Hown Hnobody.
  change (4 + depth) with (S (3 + depth)). cbn [Node.transmit].
  apply for_each_silent. intros x Hx.
  apply in_map_iff in Hx. destruct Hx as (i & <- & Hi).
  rewrite Forall_forall in Hown.
  apply transmit_info_to_nobody; auto.
Qed.

(** C2 (as the code has it).  With the hooks of [models.py], a transmit whose
    content resolves to nothing (an empty list; an unset [what] or a class of
    Info when the node authored no Info), whatever [to_whom] is, or whose
    recipients resolve to nobody (an empty list; an unset [to_whom] when the
    node has no successor; a class of Node that no successor belongs to) for
    content of the node's own, returns normally and leaves the world, hence
    the transmission table, as it was.  For any hooks: when [what] is unset
    and [_what()] returns [None] or a list containing [None], the call
    raises [ValueError], and for any other value it goes on as the call with
    that value, so that an empty list from the hook ends the call normally;
    likewise for an unset [to_whom] and [_to_whom()], for an Info of the
    node. *)
Theorem transmit_empty_resolution_is_silent :
  forall (w : world) (self : node) (depth : nat),
    (forall what to_whom,
        no_content self (db w) what ->
        Node.transmit models_behaviour (3 + depth) self what to_whom w
        = (w, Return tt)) /\
    (forall what to_whom,
        own_content self what ->
        nobody self (db w) to_whom ->
        Node.transmit models_behaviour (6 + depth) self what to_whom w
        = (w, Return tt)) /\
    (forall beh to_whom w' v,
        hook_what beh self w = (w', Return v) ->
        (is_PNone v || list_with_None v = true ->
         Node.transmit beh (1 + depth) self PNone to_whom w
         = (w', Raise (ValueError
                         "Your _what() method cannot return None."))) /\
        (is_PNone v || list_with_None v = false ->
         Node.transmit beh (1 + depth) self PNone to_whom w
         = Node.transmit beh depth self v to_whom w') /\
        (v = PList [] ->
         Node.transmit beh (2 + depth) self PNone to_whom w
         = (w', Return tt))) /\
    (forall beh i w' v,
        info_origin_uuid i = node_uuid self ->
        hook_to_whom beh self w = (w', Return v) ->
        (is_PNone v || list_with_None v = true ->
         Node.transmit beh (1 + depth) self (PInfo i) PNone w
         = (w', Raise (ValueError
                         "Your _to_whom() method cannot return None."))) /\
        (is_PNone v || list_with_None v = false ->
         Node.transmit beh (1 + depth) self (PInfo i) PNone w
         = Node.transmit beh depth self (PInfo i) v w') /\
        (v = PList [] ->
         Node.transmit beh (2 + depth) self (PInfo i) PNone w
         = (w', Return tt))).
Proof.
  intros w self depth. split; [| split; [| split]].
  - intros what to_whom [-> | [[-> | (c & -> & Hc)] Hnone]].
    + reflexivity.
    + cbn [Node.transmit Nat.add].
      unfold bind at 1. cbn [hook_what models_behaviour Node._what ret].
      cbn [is_PNone list_with_None orb issubclass pyclass_eqb].
      unfold bind, gets. rewrite Hnone. reflexivity.
    + cbn [Node.transmit Nat.add]. rewrite Hc.
      unfold bind, gets. rewrite Hnone. reflexivity.
  - intros what to_whom Hown Hnobody.
    assert (Hclass :
      forall d, Node.transmit models_behaviour (5 + d) self
                  (PClass Info_class) to_whom w = (w, Return tt)).
    { intros d. change (5 + d) with (S (4 + d)). cbn [Node.transmit].
      cbn [issubclass pyclass_eqb orb]. unfold bind at 1, gets at 1.
      apply transmit_infos_to_nobody; [| exact Hnobody].
      apply Forall_forall. intros i Hi.
      now apply infos_of_origin with (s := db w). }
    destruct Hown as [-> | [(c & -> & Hc) | [(i & -> & Ho) | (ys & -> & Hys)]]].
    + change (6 + depth) with (S (5 + depth)). cbn [Node.transmit].
      unfold bind at 1. cbn [hook_what models_behaviour Node._what ret].
      cbn [is_PNone list_with_None orb]. apply Hclass.
    + destruct c; try discriminate Hc. apply (Hclass (1 + depth)).
    + now apply (transmit_info_to_nobody (3 + depth)).
    + now apply (transmit_infos_to_nobody (2 + depth)).
  - intros beh to_whom w' v Hhook. split; [| split].
    + intros Hbad. cbn [Node.transmit Nat.add]. unfold bind.
      rewrite Hhook, Hbad. reflexivity.
    + intros Hgood. cbn [Node.transmit Nat.add]. unfold bind.
      rewrite Hhook, Hgood. reflexivity.
    + intros ->. cbn [Node.transmit Nat.add]. unfold bind.
      rewrite Hhook. reflexivity.
  - intros beh i w' v Ho Hhook. split; [| split].
    + intros Hbad. cbn [Node.transmit Nat.add].
      rewrite Ho, String.eqb_refl. cbn [negb]. unfold bind.
      rewrite Hhook, Hbad. reflexivity.
    + intros Hgood. cbn [Node.transmit Nat.add].
      rewrite Ho, String.eqb_refl. cbn [negb]. unfold bind.
      rewrite Hhook, Hgood. reflexivity.
    + intros ->. cbn [Node.transmit Nat.add].
      rewrite Ho, String.eqb_refl. cbn [negb]. unfold bind.
      rewrite Hhook. reflexivity.
Qed.

Lemma transmit_empty_resolution_is_silent_witness :
  no_content A1 (db lone_node) PNone /\
  own_content A1 (PInfo blank_info) /\
  nobody A1 (db lone_node) (PClass Agent_class) /\
  Node.transmit models_behaviour 3 A1 PNone (PNode A2) lone_node
    = (lone_node, Return tt) /\
  Node.transmit models_behaviour 6 A1 (PInfo blank_info) (PClass Agent_class)
    lone_node
    = (lone_node, Return tt) /\
  Node.transmit (mk_behaviour (fun _ => ret (PList [PInfo i1; PNone]))
                   Node._to_whom Node.update)
    1 A1 PNone PNone lone_node
    = (lone_node,
       Raise (ValueError "Your _what() method cannot return None.")) /\
  Node.transmit (mk_behaviour (fun _ => ret (PList []))
                   Node._to_whom Node.update)
    2 A1 PNone PNone lone_node
    = (lone_node, Return tt) /\
  Node.transmit (mk_behaviour Node._what (fun _ => ret PNone) Node.update)
    1 A1 (PInfo blank_info) PNone lone_node
    = (lone_node,
       Raise (ValueError "Your _to_whom() method cannot return None.")).
Proof.
  destruct (transmit_empty_resolution_is_silent lone_node A1 0)
    as (Hcontent & Hnobody & Hwhat & Hwhom).
  assert (H1 : no_content A1 (db lone_node) PNone)
    by (right; split; [now left | reflexivity]).
  assert (H2 : own_content A1 (PInfo blank_info))
    by (right; right; left; exists blank_info; split; reflexivity).
  assert (H3 : nobody A1 (db lone_node) (PClass Agent_class))
    by (right; right; exists Agent_class; repeat split).
  split; [exact H1 |]. split; [exact H2 |]. split; [exact H3 |].
  split; [exact (Hcontent PNone (PNode A2) H1) |].
  split; [exact (Hnobody (PInfo blank_info) (PClass Agent_class) H2 H3) |].
  split.
  { destruct (Hwhat (mk_behaviour (fun _ => ret (PList [PInfo i1; PNone]))
                       Node._to_whom Node.update)
                PNone lone_node (PList [PInfo i1; PNone]) eq_refl)
      as (Hbad & _ & _).
    exact (Hbad eq_refl). }
  split.
  { destruct (Hwhat (mk_behaviour (fun _ => ret (PList []))
                       Node._to_whom Node.update)
                PNone lone_node (PList []) eq_refl) as (_ & _ & Hempty).
    exact (Hempty eq_refl). }
  destruct (Hwhom (mk_behaviour Node._what (fun _ => ret PNone) Node.update)
              blank_info lone_node PNone eq_refl eq_refl) as (Hbad & _ & _).
  exact (Hbad eq_refl).
Defined.

(** C2 as stated fails: a node with no Info and no successor transmits
    without an error. *)
Lemma empty_resolution_raises_fails :
  ~ empty_resolution_raises models_behaviour A1 lone_node.
Proof.
  intros H. destruct H as [e He]; [left; reflexivity |].
  vm_compute in He. discriminate He.
Qed.

(** ** Receiving *)

Lemma update_transmission_twice (u : string) (a b : option string)
    (l : list transmission) :
  update_transmission u (set_transmission_receive_time b)
    (update_transmission u (set_transmission_receive_time a) l)
  = update_transmission u (set_transmission_receive_time b) l.
Proof.
  unfold update_transmission. rewrite map_map. apply map_ext.
  intros t. destruct (transmission_uuid t =? u) eqn:E; cbn; now rewrite E.
Qed.

Lemma receive_step (p : transmission) (w : world) :
  Node.receive p w =
  (mk_world
     (set_transmissions
        (update_transmission (transmission_uuid p)
           (set_transmission_receive_time (Some (clock w (S (ticks w))))))
        (db w))
     (clock w) (S (S (ticks w))) (uuid4 w) (drawn w) (stdout w)
     (update_calls w),
   Return tt).
Proof.
  unfold Node.receive, Transmission.mark_received, bind, timenow, modify,
    set_db, set_transmissions.
  cbn. now rewrite update_transmission_twice.
Qed.

Lemma for_each_receive (pending : list transmission) (w : world) :
  for_each pending Node.receive w =
  (mk_world
     (set_transmissions
        (map (stamped_row (clock w) pending (ticks w))) (db w))
     (clock w) (ticks w + 2 * length pending) (uuid4 w) (drawn w) (stdout w)
     (update_calls w),
   Return tt).
Proof.
  revert w. induction pending as [|p rest IH]; intros w.
  - cbn. unfold ret, set_transmissions. rewrite map_id, Nat.add_0_r.
    destruct w as [[] ? ? ? ? ? ?]. reflexivity.
  - cbn [for_each]. unfold bind. rewrite receive_step, IH.
    cbn [db clock ticks uuid4 drawn stdout update_calls].
    unfold set_transmissions; cbn [nodes vectors networks infos
      transmissions transformations].
    unfold update_transmission. rewrite map_map. cbn [stamped_row length].
    replace (S (S (ticks w)) + 2 * length rest)
      with (ticks w + 2 * S (length rest)) by lia.
    reflexivity.
Qed.




Lemma stamped_row_keeps_received (c : nat -> string)
    (pending : list transmission) (k : nat) (t : transmission) :
  transmission_receive_time t <> None ->
  transmission_receive_time (stamped_row c pending k t) <> None.
Proof.
  revert k t. induction pending as [|p rest IH]; intros k t Hr; cbn;
    [exact Hr |].
  apply IH. destruct (transmission_uuid t =? transmission_uuid p);
    [cbn; discriminate | exact Hr].
Qed.

Lemma stamped_row_received (c : nat -> string) (pending : list transmission)
    (k : nat) (t : transmission) :
  In (transmission_uuid t) (map transmission_uuid pending) ->
  transmission_receive_time (stamped_row c pending k t) <> None.
Proof.
  revert k t. induction pending as [|p rest IH]; intros k t Hin;
    [contradiction |].
  cbn [stamped_row].
  destruct (transmission_uuid t =? transmission_uuid p) eqn:E.
  - apply stamped_row_keeps_received. cbn. discriminate.
  - apply IH. destruct Hin as [Hp | Hrest]; [| exact Hrest].
    apply String.eqb_neq in E. congruence.
Qed.

Lemma pending_spec (self : node) (s : store) (t : transmission) :
  In t (Node.pending_transmissions self s) <->
  In t (transmissions s) /\
  transmission_destination_uuid t = node_uuid self /\
  transmission_receive_time t = None.
Proof.
  unfold Node.pending_transmissions.
  rewrite sort_by_In, !filter_In, String.eqb_eq.
  destruct (transmission_receive_time t); cbn; intuition congruence.
Qed.




Lemma receive_all_steps (beh : behaviour) (self : node) (w : world) :
  Node.receive_all beh self w =
  Node.call_update beh self
    (map (fun t => Transmission.info_ t (db w))
         (Node.pending_transmissions self (db w)))
    (state_after
       (for_each (Node.pending_transmissions self (db w)) Node.receive w)).
Proof.
  unfold Node.receive_all, bind at 1, gets at 1.
  unfold bind at 1. rewrite for_each_receive.
  unfold bind at 1, gets at 1. unfold state_after. cbn [fst]. reflexivity.
Qed.

Lemma call_update_steps (beh : behaviour) (self : node)
    (infos : list (option info)) (w : world) :
  Node.call_update beh self infos w =
  hook_update beh self infos
    (mk_world (db w) (clock w) (ticks w) (uuid4 w) (drawn w) (stdout w)
       (update_calls w ++ [(node_uuid self, infos)])%list).
Proof. reflexivity. Qed.




(** ** Edges and degrees *)

Lemma filter_through_map {A} (keep : A -> bool) (h : A -> A) (rows : list A) :
  (forall x, keep (h x) = keep x) ->
  filter keep (map h rows) = map h (filter keep rows).
Proof.
  intros Hk. induction rows as [|x rows IH]; [reflexivity |].
  cbn. rewrite Hk. destruct (keep x); cbn; now rewrite IH.
Qed.

Lemma existsb_through_map {A} (q : A -> bool) (h : A -> A) (rows : list A) :
  (forall x, q (h x) = q x) ->
  existsb q (map h rows) = existsb q rows.
Proof.
  intros Hq. induction rows as [|x rows IH]; [reflexivity |].
  cbn. now rewrite Hq, IH.
Qed.

(** X1.  For nodes that are stored, [connect_to] adds one row to the vector
    table, from [self] to [other_node] and alive, and returns it: the
    out-degree that the class-level expression counts for [self] and the
    in-degree it counts for [other_node] grow by one (also for a second,
    parallel vector and for a self-loop), those of the nodes with other keys
    stay, and no other table changes. *)
Theorem connect_to_adds_one_edge :
  forall (w : world) (self other_node : node),
    In self (nodes (db w)) ->
    In other_node (nodes (db w)) ->
    let r := Node.connect_to self other_node w in
    let s' := db (state_after r) in
    let v := mk_vector (uuid4 w (drawn w)) (node_uuid self)
                       (node_uuid other_node) vector_alive None in
    outcome r = Return v /\
    vectors s' = (vectors (db w) ++ [v])%list /\
    Node.outdegree_expression self s'
      = S (Node.outdegree_expression self (db w)) /\
    Node.indegree_expression other_node s'
      = S (Node.indegree_expression other_node (db w)) /\
    (forall m, node_uuid m <> node_uuid self ->
               Node.outdegree_expression m s'
               = Node.outdegree_expression m (db w)) /\
    (forall m, node_uuid m <> node_uuid other_node ->
               Node.indegree_expression m s'
               = Node.indegree_expression m (db w)) /\
    nodes s' = nodes (db w) /\
    networks s' = networks (db w) /\
    infos s' = infos (db w) /\
    transmissions s' = transmissions (db w) /\
    transformations s' = transformations (db w).
Proof.
  intros w self other_node _ _ r s' v. subst s' r v.
  unfold Node.outdegree_expression, Node.indegree_expression.
  cbn. rewrite !filter_app, !length_app. cbn.
  rewrite !String.eqb_refl. cbn.
  split; [reflexivity |]. split; [reflexivity |].
  split; [lia |]. split; [lia |].
  split; [| split; [| repeat split]].
  - intros m Hm. rewrite filter_app, length_app. cbn.
    apply not_eq_sym in Hm. apply String.eqb_neq in Hm. rewrite Hm.
    cbn. lia.
  - intros m Hm. rewrite filter_app, length_app. cbn.
    apply not_eq_sym in Hm. apply String.eqb_neq in Hm. rewrite Hm.
    cbn. lia.
Qed.

Lemma connect_to_adds_one_edge_witness :
  In A1 (nodes (db two_agents_connected)) /\
  In A2 (nodes (db two_agents_connected)) /\
  Node.outdegree_expression A1 (db two_agents_connected) = 1 /\
  Node.outdegree_expression A1
    (db (state_after (Node.connect_to A1 A2 two_agents_connected))) = 2.
Proof.
  assert (H1 : In A1 (nodes (db two_agents_connected))) by (cbn; auto).
  assert (H2 : In A2 (nodes (db two_agents_connected))) by (cbn; auto).
  destruct (connect_to_adds_one_edge two_agents_connected A1 A2 H1 H2)
    as (_ & _ & Hout & _).
  split; [exact H1 |]. split; [exact H2 |]. split; [reflexivity |].
  rewrite Hout. reflexivity.
Defined.

(** X2.  [has_connection_from] answers [True] exactly when [other_node] is a
    stored node and some vector runs from it to [self]; it never raises and
    changes nothing.  In particular it answers [True] after
    [other_node.connect_to(self)] for a stored [other_node]. *)
Theorem has_connection_from_iff_vector :
  forall (w : world) (self other_node : node),
    (exists b, Node.has_connection_from self other_node w = (w, Return b) /\
       (b = true <->
        In (node_uuid other_node) (map node_uuid (nodes (db w))) /\
        exists v, In v (vectors (db w)) /\
                  vector_origin_uuid v = node_uuid other_node /\
                  vector_destination_uuid v = node_uuid self)) /\
    (In other_node (nodes (db w)) ->
     outcome (Node.has_connection_from self other_node
                (state_after (Node.connect_to other_node self w)))
     = Return true).
Proof.
  intros w self other_node.
  assert (Hiff : forall s,
    Node.contains other_node (Node.predecessors self s) = true <->
    In (node_uuid other_node) (map node_uuid (nodes s)) /\
    exists v, In v (vectors s) /\
              vector_origin_uuid v = node_uuid other_node /\
              vector_destination_uuid v = node_uuid self).
  { intros s. unfold Node.contains, Node.predecessors, Node.incoming_vectors.
    rewrite existsb_exists. split.
    - intros (n & Hn & Hu). apply filter_In in Hn. destruct Hn as [Hn Hv].
      apply String.eqb_eq in Hu. apply existsb_exists in Hv.
      destruct Hv as (v & Hv & Ho). apply filter_In in Hv.
      destruct Hv as [Hv Hd]. apply String.eqb_eq in Ho, Hd.
      split; [rewrite <- Hu; now apply in_map |].
      exists v. repeat split; congruence.
    - intros (Hin & v & Hv & Ho & Hd). apply in_map_iff in Hin.
      destruct Hin as (n & Hu & Hn). exists n.
      split; [| now apply String.eqb_eq].
      apply filter_In. split; [exact Hn |].
      apply existsb_exists. exists v. split.
      + apply filter_In. split; [exact Hv | now apply String.eqb_eq].
      + apply String.eqb_eq. congruence. }
  split.
  - exists (Node.contains other_node (Node.predecessors self (db w))).
    split; [reflexivity | apply Hiff].
  - intros Hstored. unfold Node.has_connection_from, gets, outcome.
    cbn [snd]. f_equal. apply Hiff. split.
    + cbn. now apply in_map.
    + eexists. split; [cbn; apply in_or_app; right; left; reflexivity |].
      split; reflexivity.
Qed.

Lemma has_connection_from_iff_vector_witness :
  In A1 (nodes (db two_agents)) /\
  outcome (Node.has_connection_from A2 A1 two_agents) = Return false /\
  outcome (Node.has_connection_from A2 A1
             (state_after (Node.connect_to A1 A2 two_agents)))
  = Return true.
Proof.
  assert (Hin : In A1 (nodes (db two_agents))) by (cbn; auto).
  destruct (has_connection_from_iff_vector two_agents A2 A1) as [_ Hafter].
  split; [exact Hin |]. split; [reflexivity | exact (Hafter Hin)].
Defined.

(** ** Killing a vector *)

Lemma update_vector_twice (u : string) (f g : vector -> vector)
    (l : list vector) :
  (forall v, vector_uuid (g v) = vector_uuid v) ->
  update_vector u f (update_vector u g l)
  = update_vector u (fun v => f (g v)) l.
Proof.
  intros Hg. unfold update_vector. rewrite map_map. apply map_ext.
  intros v. destruct (vector_uuid v =? u) eqn:E.
  - now rewrite Hg, E.
  - now rewrite E.
Qed.

Lemma vector_kill_steps (self : vector) (w : world) :
  Vector.kill self w =
  (mk_world
     (set_vectors
        (update_vector (vector_uuid self)
           (fun v => set_vector_time_of_death (Some (clock w (ticks w)))
                       (set_vector_status vector_dead v)))
        (db w))
     (clock w) (S (ticks w)) (uuid4 w) (drawn w) (stdout w) (update_calls w),
   Return tt).
Proof.
  unfold Vector.kill, bind, modify, timenow, set_db, set_vectors. cbn.
  now rewrite update_vector_twice.
Qed.

Lemma update_vector_keeps_ends (u : string) (t : option string)
    (st : vector_status) (keep : vector -> bool) (l : list vector) :
  (forall v, keep (set_vector_time_of_death t (set_vector_status st v))
             = keep v) ->
  filter keep
    (update_vector u
       (fun v => set_vector_time_of_death t (set_vector_status st v)) l)
  = update_vector u
      (fun v => set_vector_time_of_death t (set_vector_status st v))
      (filter keep l).
Proof.
  intros Hk. unfold update_vector. apply filter_through_map.
  intros v. destruct (vector_uuid v =? u); [apply Hk | reflexivity].
Qed.

(** X3.  [Vector.kill] sets the status of the rows that carry the key of
    the vector to dead and their time of death to the clock reading of the
    call, and changes nothing else: every other vector row and every other
    table is as it was, and so are the in- and out-degree that the
    class-level expressions count and the successors of every node.  A dead
    vector still counts as an edge. *)
Theorem Vector_kill_keeps_the_graph :
  forall (w : world) (self : vector),
    let r := Vector.kill self w in
    let s' := db (state_after r) in
    outcome r = Return tt /\
    nodes s' = nodes (db w) /\
    networks s' = networks (db w) /\
    infos s' = infos (db w) /\
    transmissions s' = transmissions (db w) /\
    transformations s' = transformations (db w) /\
    vectors s'
      = map (fun v =>
               if vector_uuid v =? vector_uuid self
               then mk_vector (vector_uuid v) (vector_origin_uuid v)
                      (vector_destination_uuid v) vector_dead
                      (Some (clock w (ticks w)))
               else v)
            (vectors (db w)) /\
    (forall n, Node.outdegree_expression n s'
                 = Node.outdegree_expression n (db w) /\
               Node.indegree_expression n s'
                 = Node.indegree_expression n (db w) /\
               Node.successors n s' = Node.successors n (db w)).
Proof.
  intros w self r s'. subst s' r. rewrite vector_kill_steps.
  unfold state_after, outcome. cbn [fst snd db].
  split; [reflexivity |]. split; [reflexivity |].
  split; [reflexivity |]. split; [reflexivity |].
  split; [reflexivity |]. split; [reflexivity |].
  cbn [vectors set_vectors].
  split; [reflexivity |].
  intros n.
  unfold Node.outdegree_expression, Node.indegree_expression,
    Node.successors, Node.outgoing_vectors.
  cbn [vectors nodes set_vectors].
  rewrite !update_vector_keeps_ends by reflexivity.
  unfold update_vector at 1 2. rewrite !length_map.
  split; [reflexivity |]. split; [reflexivity |].
  apply filter_ext. intros m. unfold update_vector.
  apply existsb_through_map.
  intros v. now destruct (vector_uuid v =? vector_uuid self).
Qed.

(** ** Counting edges *)

Lemma list_sum_pointwise {A} (f g : A -> nat) (rows : list A) :
  list_sum (map (fun x => f x + g x) rows)
  = list_sum (map f rows) + list_sum (map g rows).
Proof.
  unfold list_sum.
  induction rows as [|x rows IH]; [reflexivity |].
  cbn [map fold_right]. rewrite IH. lia.
Qed.

Lemma key_matches_none (u : string) (ns : list node) :
  ~ In u (map node_uuid ns) ->
  list_sum (map (fun n => if u =? node_uuid n then 1 else 0) ns) = 0.
Proof.
  induction ns as [|n ns IH]; [reflexivity |]. cbn. intros Hnot.
  destruct (u =? node_uuid n) eqn:E.
  - apply String.eqb_eq in E. exfalso. apply Hnot. now left.
  - apply IH. intros Hin. apply Hnot. now right.
Qed.

Lemma key_matches_once (u : string) (ns : list node) :
  NoDup (map node_uuid ns) -> In u (map node_uuid ns) ->
  list_sum (map (fun n => if u =? node_uuid n then 1 else 0) ns) = 1.
Proof.
  induction ns as [|n ns IH]; cbn; [contradiction |].
  intros Hnd Hin. apply NoDup_cons_iff in Hnd. destruct Hnd as [Hn Hns].
  destruct (u =? node_uuid n) eqn:E.
  - apply String.eqb_eq in E. subst u.
    now rewrite key_matches_none.
  - apply String.eqb_neq in E. destruct Hin as [Hin | Hin]; [congruence |].
    now apply IH.
Qed.

Lemma edges_counted_once (end_of : vector -> string) (ns : list node)
    (vs : list vector) :
  NoDup (map node_uuid ns) ->
  (forall v, In v vs -> In (end_of v) (map node_uuid ns)) ->
  list_sum (map (fun n =>
                   length (filter (fun v => end_of v =? node_uuid n) vs)) ns)
  = length vs.
Proof.
  intros Hnd. induction vs as [|v vs IH]; intros Hends.
  - cbn. clear Hnd Hends. induction ns as [|n ns IHn]; [reflexivity |].
    exact IHn.
  - transitivity
      (list_sum (map (fun n => if end_of v =? node_uuid n then 1 else 0) ns)
       + list_sum (map (fun n =>
                          length (filter (fun x => end_of x =? node_uuid n)
                                    vs)) ns)).
    + rewrite <- list_sum_pointwise. f_equal. apply map_ext.
      intros n. cbn. now destruct (end_of v =? node_uuid n).
    + rewrite key_matches_once by (auto; apply Hends; now left).
      rewrite IH by (intros x Hx; apply Hends; now right).
      reflexivity.
Qed.

(** X4.  In a store with unique node keys whose vectors all start and end at
    stored nodes, the out-degrees that the class-level expression counts add
    up, over the node table, to the number of vectors, and so do the
    in-degrees. *)
Theorem degrees_add_up_to_vectors :
  forall s : store,
    unique_node_keys s ->
    vectors_join_nodes s ->
    list_sum (map (fun n => Node.outdegree_expression n s) (nodes s))
      = length (vectors s) /\
    list_sum (map (fun n => Node.indegree_expression n s) (nodes s))
      = length (vectors s).
Proof.
  intros s Hkeys Hjoin.
  unfold Node.outdegree_expression, Node.indegree_expression.
  split; apply edges_counted_once; try exact Hkeys;
    intros v Hv; now apply Hjoin.
Qed.

Lemma degrees_add_up_to_vectors_witness :
  unique_node_keys (db two_agents_twice) /\
  vectors_join_nodes (db two_agents_twice) /\
  list_sum (map (fun n => Node.outdegree_expression n (db two_agents_twice))
              (nodes (db two_agents_twice))) = 2.
Proof.
  assert (Hk : unique_node_keys (db two_agents_twice)).
  { unfold unique_node_keys; cbn.
    repeat constructor; cbn; intuition discriminate. }
  assert (Hj : vectors_join_nodes (db two_agents_twice)).
  { intros v Hv. cbn in Hv. destruct Hv as [<- | [<- | []]]; cbn; auto. }
  destruct (degrees_add_up_to_vectors (db two_agents_twice) Hk Hj)
    as [Hout _].
  split; [exact Hk |]. split; [exact Hj |].
  rewrite Hout. reflexivity.
Defined.

(** ** The new accessors *)

Lemma get_node_stored (u : string) (s : store) :
  In u (map node_uuid (nodes s)) ->
  exists n, get_node u s = Some n /\ In n (nodes s) /\ node_uuid n = u.
Proof.
  unfold get_node. intros Hin. apply in_map_iff in Hin.
  destruct Hin as (m & Hu & Hm).
  destruct (find (fun n => node_uuid n =? u) (nodes s)) as [n|] eqn:E.
  - exists n. apply find_some in E. destruct E as [Hn Hk].
    apply String.eqb_eq in Hk. auto.
  - exfalso. apply (find_none _ _ E) in Hm.
    apply String.eqb_neq in Hm. contradiction.
Qed.

(** X5.  [downstream_nodes] lists one node per outgoing vector, in vector
    order: when the destinations of the outgoing vectors of [self] are
    stored, the keys of the result are the destination keys of these
    vectors, so a destination reached by two parallel vectors is listed
    twice and the length of the result is the number of vector rows that
    leave [self], which is what the class-level out-degree expression
    counts. *)
Theorem downstream_nodes_one_per_vector :
  forall (w : world) (self : node),
    rows_are_nodes (db w) ->
    (forall v, In v (Node.outgoing_vectors self (db w)) ->
               In (vector_destination_uuid v)
                  (map node_uuid (nodes (db w)))) ->
    exists ns,
      Node.downstream_nodes self w = (w, Return ns) /\
      map node_uuid ns
        = map vector_destination_uuid (Node.outgoing_vectors self (db w)) /\
      length ns = Node.outdegree_expression self (db w).
Proof.
  intros w self Hrows Hdest.
  exists (Node.select_instances Node.destination Node_class
            (Node.outgoing_vectors self (db w)) (db w)).
  split; [reflexivity |].
  assert (Hkeys :
    map node_uuid
      (Node.select_instances Node.destination Node_class
         (Node.outgoing_vectors self (db w)) (db w))
    = map vector_destination_uuid (Node.outgoing_vectors self (db w))).
  { induction (Node.outgoing_vectors self (db w)) as [|v vs IH];
      [reflexivity |].
    cbn [Node.select_instances flat_map map].
    fold (Node.select_instances Node.destination Node_class vs (db w)).
    destruct (get_node_stored (vector_destination_uuid v) (db w))
      as (n & Hget & Hn & Hu); [apply Hdest; now left |].
    unfold Node.destination at 1. rewrite Hget.
    unfold Node.isinstance. rewrite (Hrows n Hn). cbn.
    rewrite Hu. f_equal. apply IH. intros x Hx. apply Hdest. now right. }
  split; [exact Hkeys |].
  unfold Node.outdegree_expression.
  rewrite <- (length_map node_uuid), Hkeys. apply length_map.
Qed.

Lemma downstream_nodes_one_per_vector_witness :
  rows_are_nodes (db two_agents_twice) /\
  (forall v, In v (Node.outgoing_vectors A1 (db two_agents_twice)) ->
             In (vector_destination_uuid v)
                (map node_uuid (nodes (db two_agents_twice)))) /\
  exists ns,
    Node.downstream_nodes A1 two_agents_twice
      = (two_agents_twice, Return ns) /\
    map node_uuid ns = ["a2"; "a2"] /\
    length ns = 2.
Proof.
  assert (Hrows : rows_are_nodes (db two_agents_twice)).
  { intros n Hn. cbn in Hn.
    destruct Hn as [<- | [<- | [<- | []]]]; reflexivity. }
  assert (Hdest : forall v,
             In v (Node.outgoing_vectors A1 (db two_agents_twice)) ->
             In (vector_destination_uuid v)
                (map node_uuid (nodes (db two_agents_twice)))).
  { intros v Hv. cbn in Hv. destruct Hv as [<- | [<- | []]]; cbn; auto. }
  split; [exact Hrows |]. split; [exact Hdest |].
  exact (downstream_nodes_one_per_vector two_agents_twice A1 Hrows Hdest).
Defined.



(** ** Status and membership *)

Lemma insert_by_through_map {A} (le : A -> A -> bool) (h : A -> A) (x : A)
    (rows : list A) :
  (forall a b, le (h a) (h b) = le a b) ->
  insert_by le (h x) (map h rows) = map h (insert_by le x rows).
Proof.
  intros Hle. induction rows as [|y rows IH]; [reflexivity |].
  cbn. rewrite Hle. destruct (le x y); [reflexivity |]. cbn. now rewrite IH.
Qed.

Lemma sort_by_through_map {A} (le : A -> A -> bool) (h : A -> A)
    (rows : list A) :
  (forall a b, le (h a) (h b) = le a b) ->
  sort_by le (map h rows) = map h (sort_by le rows).
Proof.
  intros Hle. induction rows as [|x rows IH]; [reflexivity |].
  cbn. fold (sort_by le (map h rows)). fold (sort_by le rows).
  rewrite IH. now apply insert_by_through_map.
Qed.

Lemma stamp_in_one_step (u : string) (st : node_status) (t : option string)
    (s : store) :
  set_nodes (update_node u (set_node_time_of_death t))
    (set_nodes (update_node u (set_node_status st)) s)
  = set_nodes
      (update_node u
         (fun n => set_node_time_of_death t (set_node_status st n))) s.
Proof.
  unfold set_nodes. cbn. now rewrite update_node_twice.
Qed.

Lemma stamp_keeps_keys (u : string) (st : node_status) (t : option string)
    (rows : list node) :
  map node_uuid
    (update_node u
       (fun n => set_node_time_of_death t (set_node_status st n)) rows)
  = map node_uuid rows.
Proof.
  unfold update_node. rewrite map_map. apply map_ext.
  intros n. now destruct (node_uuid n =? u).
Qed.

Lemma sources_after_stamp (self : network) (u : string) (st : node_status)
    (t : option string) (s : store) :
  map node_uuid
    (Network.sources self
       (set_nodes
          (update_node u
             (fun n => set_node_time_of_death t (set_node_status st n))) s))
  = map node_uuid (Network.sources self s).
Proof.
  unfold Network.sources. cbn [nodes set_nodes].
  unfold update_node at 1.
  rewrite !filter_through_map
    by (intros n; now destruct (node_uuid n =? u)).
  rewrite sort_by_through_map
    by (intros a b; unfold asc;
        now destruct (node_uuid a =? u), (node_uuid b =? u)).
  rewrite map_map. apply map_ext.
  intros n. now destruct (node_uuid n =? u).
Qed.

Lemma agents_after_stamp (self : network) (u : string) (st : node_status)
    (t : option string) (s : store) (n : node) :
  st <> alive ->
  In n (Network.agents self
          (set_nodes
             (update_node u
                (fun m => set_node_time_of_death t (set_node_status st m)))
             s)) ->
  node_uuid n <> u.
Proof.
  intros Hst Hin Hu. unfold Network.agents in Hin.
  rewrite sort_by_In, !filter_In in Hin. cbn [nodes set_nodes] in Hin.
  destruct Hin as ((((Hrow & _) & Hfailed) & _) & Hdead).
  unfold update_node in Hrow. apply in_map_iff in Hrow.
  destruct Hrow as (m & Hm & _).
  destruct (node_uuid m =? u) eqn:E.
  - subst n. unfold Network.status_is in Hfailed, Hdead. cbn in Hfailed, Hdead.
    destruct st; [now apply Hst | discriminate Hdead | discriminate Hfailed].
  - subst n. apply String.eqb_neq in E. contradiction.
Qed.

(** X7.  Once a node is killed or failed, no network lists a row with its
    key among its agents; the sources of a network keep their keys and
    their order, since [sources] does not look at the status. *)
Theorem killed_node_leaves_agents :
  forall (w : world) (self : node) (N : network),
    (forall n,
        In n (Network.agents N (db (state_after (Node.kill self w)))) ->
        node_uuid n <> node_uuid self) /\
    (forall n,
        In n (Network.agents N (db (state_after (Node.fail self w)))) ->
        node_uuid n <> node_uuid self) /\
    map node_uuid (Network.sources N (db (state_after (Node.kill self w))))
      = map node_uuid (Network.sources N (db w)) /\
    map node_uuid (Network.sources N (db (state_after (Node.fail self w))))
      = map node_uuid (Network.sources N (db w)).
Proof.
  intros w self N. rewrite kill_steps, fail_steps.
  unfold state_after; cbn [fst db].
  rewrite !stamp_in_one_step.
  split; [| split; [| split]].
  - intros n Hn.
    apply (agents_after_stamp N (node_uuid self) dead
             (Some (clock w (ticks w))) (db w) n); [discriminate |].
    exact Hn.
  - intros n Hn.
    apply (agents_after_stamp N (node_uuid self) failed
             (Some (clock w (ticks w))) (db w) n); [discriminate |].
    exact Hn.
  - apply (sources_after_stamp N (node_uuid self) dead).
  - apply (sources_after_stamp N (node_uuid self) failed).
Qed.

Lemma has_participant_after_stamp (N : network) (p : option string)
    (u : string) (st : node_status) (t : option string) (s : store) :
  Network.has_participant N p
    (set_nodes
       (update_node u
          (fun n => set_node_time_of_death t (set_node_status st n))) s)
  = Network.has_participant N p s.
Proof.
  unfold Network.has_participant. cbn [nodes set_nodes].
  unfold update_node.
  rewrite !filter_through_map
    by (intros n; now destruct (node_uuid n =? u)).
  now apply existsb_through_map.
Qed.

(** X8.  [has_participant] tells whether some node row of the network
    carries the participant key, whatever the status of the node: killing or
    failing a node does not change the answer. *)
Theorem has_participant_ignores_status :
  forall (w : world) (self : node) (N : network) (p : option string),
    (Network.has_participant N p (db w) = true <->
     exists n, In n (nodes (db w)) /\
               Network.in_network N n = true /\
               Network.has_participant_uuid p n = true) /\
    Network.has_participant N p (db (state_after (Node.kill self w)))
      = Network.has_participant N p (db w) /\
    Network.has_participant N p (db (state_after (Node.fail self w)))
      = Network.has_participant N p (db w).
Proof.
  intros w self N p. split; [| split].
  - unfold Network.has_participant. rewrite existsb_exists. split.
    + intros (n & Hn & _). rewrite !filter_In in Hn. exists n. tauto.
    + intros (n & Hn & Hnet & Hp). exists n.
      rewrite !filter_In. tauto.
  - rewrite kill_steps. unfold state_after; cbn [fst db].
    rewrite stamp_in_one_step.
    apply (has_participant_after_stamp N p (node_uuid self) dead).
  - rewrite fail_steps. unfold state_after; cbn [fst db].
    rewrite stamp_in_one_step.
    apply (has_participant_after_stamp N p (node_uuid self) failed).
Qed.

(** ** Wiring sources and agents into a network *)

Lemma new_vectors_ends (keys : nat -> string) (k : nat) (source : node)
    (ags : list node) :
  map vector_destination_uuid (new_vectors keys k source ags)
    = map node_uuid ags /\
  map vector_uuid (new_vectors keys k source ags)
    = map keys (seq k (length ags)) /\
  Forall (fun v => vector_origin_uuid v = node_uuid source /\
                   vector_status_ v = vector_alive)
         (new_vectors keys k source ags).
Proof.
  revert k. induction ags as [|a ags IH]; intros k.
  - repeat split; constructor.
  - destruct (IH (S k)) as (Hd & Hu & Ho). cbn.
    rewrite Hd, Hu. repeat split. constructor; [split; reflexivity | exact Ho].
Qed.

Lemma connect_to_each (source : node) (ags : list node) (w : world) :
  for_collect ags (fun agent => Node.connect_to source agent) w =
  (mk_world
     (set_vectors
        (fun vs => (vs ++ new_vectors (uuid4 w) (drawn w) source ags)%list)
        (db w))
     (clock w) (ticks w) (uuid4 w) (drawn w + length ags) (stdout w)
     (update_calls w),
   Return (new_vectors (uuid4 w) (drawn w) source ags)).
Proof.
  revert w. induction ags as [|a ags IH]; intros w.
  - cbn. unfold ret, set_vectors. rewrite app_nil_r, Nat.add_0_r.
    destruct w as [[] ? ? ? ? ? ?]. reflexivity.
  - cbn [for_collect]. unfold bind at 1.
    change (Node.connect_to source a w) with
      (mk_world
         (set_vectors
            (fun vs => (vs ++ [mk_vector (uuid4 w (drawn w))
                                 (node_uuid source) (node_uuid a)
                                 vector_alive None])%list) (db w))
         (clock w) (ticks w) (uuid4 w) (S (drawn w)) (stdout w)
         (update_calls w),
       Return (mk_vector (uuid4 w (drawn w)) (node_uuid source)
                 (node_uuid a) vector_alive None)).
    unfold bind at 1. rewrite IH.
    cbn [db clock ticks uuid4 drawn stdout update_calls new_vectors length].
    unfold ret, set_vectors.
    cbn [nodes vectors networks infos transmissions transformations].
    rewrite <- app_assoc. cbn [app].
    replace (S (drawn w) + length ags) with (drawn w + S (length ags)) by lia.
    reflexivity.
Qed.

Lemma same_or_joined_refl (N : network) (rows : list node) :
  Forall2 (same_or_joined N) rows rows.
Proof. induction rows; constructor; auto. now left. Qed.


Lemma joined_rows_stay (N : network) (key u : string) (rows : list node) :
  (forall n, In n rows -> node_uuid n = key ->
             node_network_uuid n = Some (network_uuid N)) ->
  forall n,
    In n (update_node u (set_node_network_uuid (Some (network_uuid N))) rows) ->
    node_uuid n = key -> node_network_uuid n = Some (network_uuid N).
Proof.
  intros Hrows n Hn Hk. unfold update_node in Hn. apply in_map_iff in Hn.
  destruct Hn as (m & Hm & Hin).
  destruct (node_uuid m =? u); subst n; [reflexivity | now apply Hrows].
Qed.

Lemma set_network_each (N : network) (key : string) (vs : list vector) :
  forall w : world,
    exists rows,
      for_each vs (fun v => Network.set_network (vector_origin_uuid v) N) w
      = (mk_world
           (mk_store rows (vectors (db w)) (networks (db w)) (infos (db w))
              (transmissions (db w)) (transformations (db w)))
           (clock w) (ticks w) (uuid4 w) (drawn w) (stdout w)
           (update_calls w),
         Return tt) /\
      Forall2 (same_or_joined N) (nodes (db w)) rows /\
      ((forall n, In n (nodes (db w)) -> node_uuid n = key ->
                  node_network_uuid n = Some (network_uuid N)) ->
       forall n, In n rows -> node_uuid n = key ->
                 node_network_uuid n = Some (network_uuid N)).
Proof.
  induction vs as [|v vs IH]; intros w.
  - exists (nodes (db w)). split; [| split].
    + destruct w as [[] ? ? ? ? ? ?]. reflexivity.
    + apply same_or_joined_refl.
    + auto.
  - cbn [for_each]. unfold bind.
    unfold Network.set_network at 1, modify at 1.
    destruct (IH (set_db
                    (set_nodes
                       (update_node (vector_origin_uuid v)
                          (set_node_network_uuid (Some (network_uuid N)))))
                    w)) as (rows & Hrun & Hrel & Hkey).
    exists rows. split; [exact Hrun | split].
    + cbn [db set_db nodes set_nodes] in Hrel.
      clear -Hrel. revert rows Hrel.
      induction (nodes (db w)) as [|n l IHl]; intros rows Hrel;
        inversion Hrel as [|? n' ? rows' Hn Hl]; subst; constructor.
      * destruct (node_uuid n =? vector_origin_uuid v).
        -- destruct Hn as [-> | ->]; right; reflexivity.
        -- exact Hn.
      * now apply IHl.
    + intros Hw. apply Hkey. cbn [db set_db nodes set_nodes].
      now apply joined_rows_stay.
Qed.

Lemma add_source_global_steps (N : network) (source : node) (w : world) :
  exists rows,
    Network.add_source_global N source w
    = (mk_world
         (mk_store rows
            (vectors (db w)
             ++ new_vectors (uuid4 w) (drawn w) source
                  (Network.agents N (db w)))%list
            (networks (db w)) (infos (db w)) (transmissions (db w))
            (transformations (db w)))
         (clock w) (ticks w) (uuid4 w)
         (drawn w + length (Network.agents N (db w))) (stdout w)
         (update_calls w),
       Return (new_vectors (uuid4 w) (drawn w) source
                 (Network.agents N (db w)))) /\
    Forall2 (same_or_joined N) (nodes (db w)) rows /\
    (forall n, In n rows -> node_uuid n = node_uuid source ->
               node_network_uuid n = Some (network_uuid N)).
Proof.
  unfold Network.add_source_global.
  unfold bind at 1, gets at 1. unfold bind at 1. rewrite connect_to_each.
  unfold bind at 1.
  unfold Network.set_network at 1, modify at 1.
  match goal with
  | |- context [bind (for_each ?vs ?body) _ ?v] =>
    destruct (set_network_each N (node_uuid source) vs v)
      as (rows & Hrun & Hrel & Hkey)
  end.
  exists rows. unfold bind at 1. rewrite Hrun. split; [reflexivity |].
  cbn [db set_db nodes set_nodes set_vectors] in Hrel, Hkey.
  split.
  - clear -Hrel. revert rows Hrel.
    induction (nodes (db w)) as [|n l IHl]; intros rows Hrel;
      inversion Hrel as [|? n' ? rows' Hn Hl]; subst; constructor.
    + destruct (node_uuid n =? node_uuid source).
      * destruct Hn as [-> | ->]; right; reflexivity.
      * exact Hn.
    + now apply IHl.
  - apply Hkey. intros n Hn Hu. unfold update_node in Hn.
    apply in_map_iff in Hn. destruct Hn as (m & Hm & _).
    destruct (node_uuid m =? node_uuid source) eqn:E; subst n;
      [reflexivity |].
    apply String.eqb_neq in E. contradiction.
Qed.

(** X9.  For a stored source, [add_source_global] creates one vector per
    agent of the network, in agent order, each from the source to that agent
    and alive, with the next keys of the uuid source; it returns exactly
    these vectors and appends them to the vector table.  Every node row is
    left as it was or has its network set to this network, and the rows of
    the source end up in the network, also when the network has no agent. *)
Theorem add_source_global_one_vector_per_agent :
  forall (w : world) (N : network) (source : node),
    In source (nodes (db w)) ->
    let ags := Network.agents N (db w) in
    let r := Network.add_source_global N source w in
    exists vs,
      outcome r = Return vs /\
      map vector_destination_uuid vs = map node_uuid ags /\
      map vector_uuid vs = map (uuid4 w) (seq (drawn w) (length ags)) /\
      Forall (fun v => vector_origin_uuid v = node_uuid source /\
                       vector_status_ v = vector_alive) vs /\
      vectors (db (state_after r)) = (vectors (db w) ++ vs)%list /\
      transmissions (db (state_after r)) = transmissions (db w) /\
      Forall2 (same_or_joined N) (nodes (db w)) (nodes (db (state_after r))) /\
      (forall n, In n (nodes (db (state_after r))) ->
                 node_uuid n = node_uuid source ->
                 node_network_uuid n = Some (network_uuid N)).
Proof.
  intros w N source _ ags r. subst r ags.
  destruct (add_source_global_steps N source w) as (rows & Hrun & Hrel & Hsrc).
  rewrite Hrun. unfold state_after, outcome. cbn [fst snd db nodes vectors
    transmissions].
  exists (new_vectors (uuid4 w) (drawn w) source (Network.agents N (db w))).
  destruct (new_vectors_ends (uuid4 w) (drawn w) source
              (Network.agents N (db w))) as (Hd & Hu & Ho).
  repeat split; assumption.
Qed.

Lemma add_source_global_one_vector_per_agent_witness :
  In S0 (nodes (db lone_source)) /\
  Network.agents net (db lone_source) = [] /\
  outcome (Network.add_source_global net S0 lone_source) = Return [] /\
  map node_network_uuid
    (nodes (db (state_after (Network.add_source_global net S0 lone_source))))
  = [Some "net"].
Proof.
  assert (Hin : In S0 (nodes (db lone_source))) by (cbn; auto).
  destruct (add_source_global_one_vector_per_agent lone_source net S0 Hin)
    as (vs & Hout & Hd & _).
  split; [exact Hin |]. split; [reflexivity |].
  split; [| reflexivity].
  rewrite Hout. destruct vs; [reflexivity | discriminate Hd].
Defined.

Lemma related_row {A} (R : A -> A -> Prop) (l l' : list A) (a : A) :
  Forall2 R l l' -> In a l -> exists b, In b l' /\ R a b.
Proof.
  induction 1 as [|x y l l' Hxy _ IH]; intros Hin; [contradiction |].
  destruct Hin as [<- | Hin].
  - exists y. split; [now left | exact Hxy].
  - destruct (IH Hin) as (b & Hb & Hab). exists b. split; [now right | exact Hab].
Qed.

(** X10.  After [add_source_global] with a stored Source, the vectors it
    returned are listed by the [vectors] property of the network, and the
    source is listed among its [sources]. *)
Theorem global_source_joins_the_network :
  forall (w : world) (N : network) (source : node),
    In source (nodes (db w)) ->
    node_class source = Source_class ->
    let r := Network.add_source_global N source w in
    (forall vs, outcome r = Return vs ->
       forall v, In v vs -> In v (Network.vectors_ N (db (state_after r)))) /\
    In (node_uuid source)
       (map node_uuid (Network.sources N (db (state_after r)))).
Proof.
  intros w N source Hstored Hcls r. subst r.
  destruct (add_source_global_steps N source w) as (rows & Hrun & Hrel & Hsrc).
  rewrite Hrun. unfold state_after, outcome. cbn [fst snd db].
  destruct (related_row _ _ _ source Hrel Hstored) as (n' & Hn' & Hjoin).
  assert (Hu : node_uuid n' = node_uuid source)
    by (destruct Hjoin as [-> | ->]; reflexivity).
  assert (Hc : node_class n' = Source_class)
    by (destruct Hjoin as [-> | ->]; exact Hcls).
  assert (Hnet : Network.in_network N n' = true).
  { unfold Network.in_network. rewrite (Hsrc n' Hn' Hu).
    apply String.eqb_refl. }
  split.
  - intros vs Hvs v Hv. injection Hvs as <-.
    unfold Network.vectors_. apply sort_by_In. apply filter_In.
    cbn [vectors nodes]. split; [apply in_or_app; now right |].
    apply existsb_exists. exists n'. split; [exact Hn' |].
    rewrite Hnet, andb_true_r. apply String.eqb_eq.
    destruct (new_vectors_ends (uuid4 w) (drawn w) source
                (Network.agents N (db w))) as (_ & _ & Ho).
    rewrite Forall_forall in Ho. destruct (Ho v Hv) as [-> _]. exact Hu.
  - rewrite <- Hu. apply in_map. unfold Network.sources.
    apply sort_by_In. rewrite !filter_In. cbn [nodes].
    repeat split; [exact Hn' | | exact Hnet].
    unfold Node.isinstance. now rewrite Hc.
Qed.

Lemma global_source_joins_the_network_witness :
  In S0 (nodes (db two_agents)) /\
  node_class S0 = Source_class /\
  map (fun v => (vector_origin_uuid v, vector_destination_uuid v))
    (Network.vectors_ net
       (db (state_after (Network.add_source_global net S0 two_agents))))
  = [("s0", "a1"); ("s0", "a2")] /\
  In (node_uuid S0)
     (map node_uuid
        (Network.sources net
           (db (state_after (Network.add_source_global net S0 two_agents))))).
Proof.
  assert (Hin : In S0 (nodes (db two_agents))) by (cbn; auto).
  destruct (global_source_joins_the_network two_agents net S0 Hin eq_refl)
    as [_ Hsrc].
  split; [exact Hin |]. split; [reflexivity |].
  split; [reflexivity | exact Hsrc].
Defined.



(** ** Session scopes *)

(** X12.  When the body of [sessions_scope] raises, or when it returns and
    the commit raises, the session is rolled back and then removed, and the
    exception reaches the caller: a value that the body returned is lost,
    and a body that raised is never committed. *)
Theorem sessions_scope_rolls_back :
  forall (S A : Type) (sess : db.session S) (body : M S A)
         (s s1 s2 s3 s4 : S) (e : exn) (v : A) (flag : bool),
    (body s = (s1, Raise e) ->
     db.rollback S sess s1 = (s2, Return tt) ->
     db.remove S sess s2 = (s3, Return tt) ->
     db.sessions_scope S sess flag body s = (s3, Raise e)) /\
    (body s = (s1, Return v) ->
     db.commit S sess s1 = (s2, Raise e) ->
     db.rollback S sess s2 = (s3, Return tt) ->
     db.remove S sess s3 = (s4, Return tt) ->
     db.sessions_scope S sess true body s = (s4, Raise e)).
Proof.
  intros S A sess body s s1 s2 s3 s4 e v flag. split.
  - intros Hbody Hroll Hrem.
    unfold db.sessions_scope, try_finally, try_except, bind.
    rewrite Hbody, Hroll. cbn. now rewrite Hrem.
  - intros Hbody Hcommit Hroll Hrem.
    unfold db.sessions_scope, try_finally, try_except, bind.
    rewrite Hbody, Hcommit, Hroll. cbn. now rewrite Hrem.
Qed.

Lemma sessions_scope_rolls_back_witness :
  db.sessions_scope (list string) recording_session true failing_body []
    = (["body"; "rollback"; "remove"], Raise (ValueError "boom")) /\
  db.sessions_scope (list string) failing_commit_session true quiet_body []
    = (["body"; "commit"; "rollback"; "remove"],
       Raise (OperationalError (OtherDatabaseError "server closed"))).
Proof.
  destruct (sessions_scope_rolls_back (list string) unit recording_session
              failing_body [] ["body"] ["body"; "rollback"]
              ["body"; "rollback"; "remove"] [] (ValueError "boom") tt true)
    as [Hbody _].
  destruct (sessions_scope_rolls_back (list string) nat
              failing_commit_session quiet_body [] ["body"]
              ["body"; "commit"] ["body"; "commit"; "rollback"]
              ["body"; "commit"; "rollback"; "remove"]
              (OperationalError (OtherDatabaseError "server closed")) 7 true)
    as [_ Hcommit].
  split.
  - apply Hbody; reflexivity.
  - apply Hcommit; reflexivity.
Defined.

(** X13.  When the body returns and nothing fails, [sessions_scope] commits
    only if asked to, never rolls back, removes the session and hands the
    value of the body to the caller; [scoped_session_decorator] is the case
    without commit. *)
Theorem sessions_scope_commits_on_request :
  forall (S A : Type) (sess : db.session S) (body : M S A)
         (s s1 s2 s3 : S) (v : A),
    body s = (s1, Return v) ->
    (db.commit S sess s1 = (s2, Return tt) ->
     db.remove S sess s2 = (s3, Return tt) ->
     db.sessions_scope S sess true body s = (s3, Return v)) /\
    (db.remove S sess s1 = (s3, Return tt) ->
     db.sessions_scope S sess false body s = (s3, Return v) /\
     db.scoped_session_decorator S sess body s = (s3, Return v)).
Proof.
  intros S A sess body s s1 s2 s3 v Hbody. split.
  - intros Hcommit Hrem.
    unfold db.sessions_scope, try_finally, try_except, bind.
    rewrite Hbody, Hcommit. cbn. now rewrite Hrem.
  - intros Hrem.
    unfold db.scoped_session_decorator, db.sessions_scope, try_finally,
      try_except, bind.
    rewrite Hbody. cbn. now rewrite Hrem.
Qed.

Lemma sessions_scope_commits_on_request_witness :
  quiet_body [] = (["body"], Return 7) /\
  db.sessions_scope (list string) recording_session true quiet_body []
    = (["body"; "commit"; "remove"], Return 7) /\
  db.scoped_session_decorator (list string) recording_session quiet_body []
    = (["body"; "remove"], Return 7).
Proof.
  destruct (sessions_scope_commits_on_request (list string) nat
              recording_session quiet_body [] ["body"] ["body"; "commit"]
              ["body"; "commit"; "remove"] 7 eq_refl) as [Hcommit _].
  destruct (sessions_scope_commits_on_request (list string) nat
              recording_session quiet_body [] ["body"] []
              ["body"; "remove"] 7 eq_refl) as [_ Hplain].
  split; [reflexivity |]. split.
  - apply Hcommit; reflexivity.
  - apply Hplain. reflexivity.
Defined.

(** ** Retrying *)

Lemma attempt_body {S A} (sess : db.session S) (func : M S A) (s : S) :
  (db.connection S sess ;;;
   v <- db.sessions_scope S sess true func ;; ret (Some v)) s
  = (fst (attempt sess func s), wrapped (snd (attempt sess func s))).
Proof.
  unfold attempt, bind.
  destruct (db.connection S sess s) as [s1 [[]|e]]; [| reflexivity].
  destruct (db.sessions_scope S sess true func s1) as [s2 [v|e]];
    reflexivity.
Qed.

Lemma attempt_loop_retries {S A} (sess : db.session S) (func : M S A)
    (k : nat) :
  forall (n : nat) (s s' : S) (r : result A),
    conflicts_then (attempt sess func) k s s' r ->
    k < n ->
    r <> Raise conflict ->
    db.attempt_loop S sess func n s = (s', wrapped r).
Proof.
  induction k as [|k IH]; intros n s s' r Hrun Hk Hr;
    (destruct n as [|n]; [lia |]); cbn [db.attempt_loop];
    unfold try_except; rewrite attempt_body.
  - cbn in Hrun. rewrite Hrun. cbn [fst snd].
    destruct r as [v | e]; [reflexivity |]. cbn [wrapped].
    destruct e as [| | | | | [|msg] |]; try reflexivity.
    exfalso. now apply Hr.
  - destruct Hrun as (s1 & Hfirst & Hrest). rewrite Hfirst.
    cbn [fst snd wrapped conflict db.is_rollback]. cbn.
    apply IH; [exact Hrest | lia | exact Hr].
Qed.

(** X14.  [serialized] runs the function again after each serialization
    conflict: if fewer than one hundred attempts in a row end in a conflict
    and the next ends otherwise, the wrapper ends as that attempt did, in
    its state: it returns the value of the function, or raises the
    exception of the attempt (another [OperationalError], or any other
    exception) without a further attempt. *)
Theorem serialized_returns_first_settled_attempt :
  forall (S A : Type) (sess : db.session S) (func : M S A)
         (k : nat) (s s' : S) (r : result A),
    conflicts_then (attempt sess func) k s s' r ->
    k < 100 ->
    r <> Raise conflict ->
    db.serialized S sess func s = (s', wrapped r).
Proof.
  intros S A sess func k s s' r Hrun Hk Hr.
  unfold db.serialized. now apply attempt_loop_retries with (k := k).
Qed.

Lemma serialized_returns_first_settled_attempt_witness :
  conflicts_then (attempt quiet_session flaky) 2 0 3 (Return "done") /\
  db.serialized nat quiet_session flaky 0 = (3, Return (Some "done")).
Proof.
  assert (Hrun : conflicts_then (attempt quiet_session flaky) 2 0 3
                   (Return "done")).
  { cbn. exists 1. split; [reflexivity |].
    exists 2. split; reflexivity. }
  split; [exact Hrun |].
  apply (serialized_returns_first_settled_attempt nat string quiet_session
           flaky 2 0 3 (Return "done") Hrun); [lia | discriminate].
Defined.

(** ** The outbox *)

Lemma queue_all_appends (ms box : list db.message) (pub : list db.message) :
  db.queue_all ms (db.mk_bus (Some box) pub)
  = db.Queued (db.mk_bus (Some (box ++ ms)%list) pub).
Proof.
  revert box. induction ms as [|[c m] ms IH]; intros box.
  - cbn. now rewrite app_nil_r.
  - cbn. rewrite IH. now rewrite <- app_assoc.
Qed.

(** X15.  Messages queued after a transaction began are published in the
    order they were queued when the transaction commits, after the messages
    published before; a rollback drops them, so the commit that follows
    publishes none of them.  Without an outbox in the session, queueing
    raises [KeyError] and a commit publishes nothing. *)
Theorem outbox_published_on_commit :
  forall (b : db.bus) (ms : list db.message),
    (exists b',
       db.queue_all ms (db.after_begin b) = db.Queued b' /\
       db.published (db.after_commit b') = (db.published b ++ ms)%list /\
       db.published (db.after_commit (db.after_soft_rollback b'))
         = db.published b) /\
    (forall pub channel msg,
        db.queue_message channel msg (db.mk_bus None pub)
          = db.KeyError "outbox" /\
        db.after_commit (db.mk_bus None pub) = db.mk_bus None pub).
Proof.
  intros b ms. split.
  - exists (db.mk_bus (Some ms) (db.published b)).
    unfold db.after_begin. rewrite queue_all_appends. cbn.
    repeat split. now rewrite app_nil_r.
  - intros pub channel msg. split; [reflexivity |].
    unfold db.after_commit. cbn. now rewrite app_nil_r.
Qed.

(** ** The vector of a transmission *)

Lemma filter_none {A} (keep : A -> bool) (rows : list A) :
  (forall x, In x rows -> keep x = false) -> filter keep rows = [].
Proof.
  induction rows as [|x rows IH]; intros H; [reflexivity |].
  cbn. rewrite (H x) by now left. apply IH. intros y Hy. apply H. now right.
Qed.

(** X16.  [Transmission.vector] fetches its vector with [one()]: for a
    transmission from [a] to [b] it finds no row while no vector joins [a]
    to [b], the vector after [a.connect_to(b)], and more than one row after
    a second [a.connect_to(b)]: a parallel vector makes the lookup fail. *)
Theorem parallel_vectors_break_lookup :
  forall (w : world) (a b : node) (t : transmission),
    Transmission.origin_uuid t (db w) = Some (node_uuid a) ->
    transmission_destination_uuid t = node_uuid b ->
    (forall v, In v (vectors (db w)) ->
               vector_origin_uuid v = node_uuid a ->
               vector_destination_uuid v <> node_uuid b) ->
    let w1 := state_after (Node.connect_to a b w) in
    let w2 := state_after (Node.connect_to a b w1) in
    Transmission.vector t (db w) = NoResultFound /\
    Transmission.vector t (db w1)
      = One (mk_vector (uuid4 w (drawn w)) (node_uuid a) (node_uuid b)
               vector_alive None) /\
    Transmission.vector t (db w2) = MultipleResultsFound.
Proof.
  intros w a b t Horigin Hdest Hnone w1 w2. subst w2 w1.
  assert (Hold :
    filter (fun v => (vector_origin_uuid v =? node_uuid a)
                     && (vector_destination_uuid v =? node_uuid b))
           (vectors (db w)) = []).
  { apply filter_none. intros v Hv.
    destruct (vector_origin_uuid v =? node_uuid a) eqn:E; [| reflexivity].
    apply String.eqb_eq in E. cbn.
    apply String.eqb_neq. now apply Hnone. }
  unfold Transmission.vector.
  assert (Ho : forall s, infos s = infos (db w) ->
                         Transmission.origin_uuid t s = Some (node_uuid a)).
  { intros s Hs. unfold Transmission.origin_uuid, Transmission.info_,
      get_info in *. now rewrite Hs. }
  rewrite !Ho by reflexivity. rewrite Hdest.
  cbn [Node.connect_to state_after fst db vectors set_db set_vectors].
  unfold Node.connect_to, bind, new_uuid, modify, ret, state_after.
  cbn [fst db vectors set_db set_vectors].
  rewrite !filter_app, Hold. cbn. rewrite !String.eqb_refl. cbn.
  repeat split.
Qed.

Lemma parallel_vectors_break_lookup_witness :
  Transmission.origin_uuid t1 (db with_loose_transmission) = Some "a1" /\
  Transmission.vector t1 (db with_loose_transmission) = NoResultFound /\
  Transmission.vector t1
    (db (state_after
           (Node.connect_to A1 A2
              (state_after (Node.connect_to A1 A2 with_loose_transmission)))))
  = MultipleResultsFound.
Proof.
  assert (Hnone : forall v,
             In v (vectors (db with_loose_transmission)) ->
             vector_origin_uuid v = node_uuid A1 ->
             vector_destination_uuid v <> node_uuid A2)
    by (intros v []).
  destruct (parallel_vectors_break_lookup with_loose_transmission A1 A2 t1
              eq_refl eq_refl Hnone) as (H0 & _ & H2).
  split; [reflexivity |]. split; [exact H0 | exact H2].
Defined.

(** ** Pending and incoming transmissions *)

Lemma ascii_compare_lt_trans (a b c : ascii) :
  Ascii.compare a b = Lt -> Ascii.compare b c = Lt -> Ascii.compare a c = Lt.
Proof.
  unfold Ascii.compare. rewrite !BinNat.N.compare_lt_iff.
  apply BinNat.N.lt_trans.
Qed.

Lemma string_leb_trans (x y z : string) :
  (x <=? y)%string = true -> (y <=? z)%string = true ->
  (x <=? z)%string = true.
Proof.
  unfold String.leb. revert y z.
  induction x as [|a x IH]; intros [|b y] [|c z]; cbn; try congruence.
  destruct (Ascii.compare a b) eqn:Eab; try congruence.
  - apply Ascii.compare_eq_iff in Eab. subst b.
    destruct (Ascii.compare a c); try congruence. apply IH.
  - destruct (Ascii.compare b c) eqn:Ebc; try congruence.
    + apply Ascii.compare_eq_iff in Ebc. subst c. now rewrite Eab.
    + now rewrite (ascii_compare_lt_trans a b c Eab Ebc).
Qed.

Lemma insert_by_front {A} (le : A -> A -> bool) (x : A) (rows : list A) :
  Forall (fun z => le x z = true) rows -> insert_by le x rows = x :: rows.
Proof.
  intros H. destruct H as [|z rows Hz _]; [reflexivity |].
  cbn. now rewrite Hz.
Qed.

Lemma filter_insert_by {A} (le : A -> A -> bool) (keep : A -> bool) (x : A)
    (rows : list A) :
  (forall a b c, le a b = true -> le b c = true -> le a c = true) ->
  StronglySorted (fun a b => le a b = true) rows ->
  filter keep (insert_by le x rows)
  = if keep x then insert_by le x (filter keep rows) else filter keep rows.
Proof.
  intros Htrans Hsorted.
  induction Hsorted as [|y rows Hrows IH Hy]; cbn.
  - now destruct (keep x).
  - destruct (le x y) eqn:Exy; cbn.
    + destruct (keep x) eqn:Ex, (keep y) eqn:Ey; cbn;
        rewrite ?Exy; try reflexivity.
      symmetry. apply insert_by_front.
      apply Forall_forall. intros z Hz. apply filter_In in Hz.
      rewrite Forall_forall in Hy.
      apply (Htrans x y z Exy). apply Hy. tauto.
    + rewrite IH.
      destruct (keep x) eqn:Ex, (keep y) eqn:Ey; cbn;
        rewrite ?Exy; reflexivity.
Qed.

Lemma sort_by_strongly_sorted {A} (key : A -> string) (rows : list A) :
  StronglySorted (fun a b => asc key a b = true) (sort_by (asc key) rows).
Proof.
  apply Sorted_StronglySorted.
  - intros a b c. unfold asc. apply string_leb_trans.
  - apply sort_by_sorted. apply asc_total.
Qed.

Lemma filter_sort_by {A} (key : A -> string) (keep : A -> bool)
    (rows : list A) :
  filter keep (sort_by (asc key) rows)
  = sort_by (asc key) (filter keep rows).
Proof.
  induction rows as [|x rows IH]; [reflexivity |].
  cbn [sort_by fold_right filter]. fold (sort_by (asc key) rows).
  rewrite filter_insert_by.
  - rewrite IH. now destruct (keep x).
  - intros a b c. unfold asc. apply string_leb_trans.
  - apply sort_by_strongly_sorted.
Qed.

(** X17.  [pending_transmissions] is [incoming_transmissions] without the
    transmissions that carry a receive time, in the same order; both lists
    are in ascending order of transmit time throughout (every element is at
    most every later one). *)
Theorem pending_is_unreceived_incoming :
  forall (self : node) (s : store),
    Node.pending_transmissions self s
      = filter (fun t => is_None (transmission_receive_time t))
               (Node.incoming_transmissions self s) /\
    StronglySorted
      (fun a b => (transmission_transmit_time a
                   <=? transmission_transmit_time b)%string = true)
      (Node.incoming_transmissions self s) /\
    StronglySorted
      (fun a b => (transmission_transmit_time a
                   <=? transmission_transmit_time b)%string = true)
      (Node.pending_transmissions self s).
Proof.
  intros self s.
  unfold Node.pending_transmissions, Node.incoming_transmissions.
  split; [now rewrite filter_sort_by |].
  split; apply (sort_by_strongly_sorted transmission_transmit_time).
Qed.

(** ** Receiving with the update methods of the model *)

Lemma stamped_row_destination (c : nat -> string)
    (pending : list transmission) (k : nat) (t : transmission) :
  transmission_destination_uuid (stamped_row c pending k t)
  = transmission_destination_uuid t.
Proof.
  revert k t. induction pending as [|p rest IH]; intros k t; cbn;
    [reflexivity |].
  rewrite IH. now destruct (transmission_uuid t =? transmission_uuid p).
Qed.

Lemma nothing_pending_after_loop (self : node) (w : world) :
  Node.pending_transmissions self
    (db (state_after
           (for_each (Node.pending_transmissions self (db w)) Node.receive w)))
  = [].
Proof.
  rewrite for_each_receive. unfold state_after. cbn [fst db].
  unfold Node.pending_transmissions at 1.
  cbn [transmissions set_transmissions].
  rewrite filter_twice, filter_none; [reflexivity |].
  intros t' Ht'. apply in_map_iff in Ht'. destruct Ht' as (t & <- & Ht).
  rewrite stamped_row_destination.
  destruct (transmission_destination_uuid t =? node_uuid self) eqn:Ed;
    [| reflexivity].
  cbn. destruct (transmission_receive_time t) eqn:Er.
  - assert (Hk : transmission_receive_time
                   (stamped_row (clock w)
                      (Node.pending_transmissions self (db w)) (ticks w) t)
                 <> None)
      by (apply stamped_row_keeps_received; congruence).
    now destruct (transmission_receive_time (stamped_row _ _ _ t)).
  - assert (Hk : transmission_receive_time
                   (stamped_row (clock w)
                      (Node.pending_transmissions self (db w)) (ticks w) t)
                 <> None).
    { apply stamped_row_received. apply in_map. apply pending_spec.
      apply String.eqb_eq in Ed. auto. }
    now destruct (transmission_receive_time (stamped_row _ _ _ t)).
Qed.

(** X18.  With the [update] methods that [models.py] defines (Node, Agent,
    Source), [receive_all] always ends in [NotImplementedError], yet only
    after the loop has stamped the pending transmissions: afterwards none is
    pending for the node, and the one invocation of [update] is on
    record. *)
Theorem receive_all_raises_after_stamping :
  forall (w : world) (self : node),
    let r := Node.receive_all models_behaviour self w in
    (exists msg, outcome r = Raise (NotImplementedError msg)) /\
    Node.pending_transmissions self (db (state_after r)) = [] /\
    update_calls (state_after r)
      = (update_calls w
         ++ [(node_uuid self,
              map (fun t => Transmission.info_ t (db w))
                  (Node.pending_transmissions self (db w)))])%list.
Proof.
  intros w self r. subst r.
  rewrite receive_all_steps, call_update_steps.
  pose proof (nothing_pending_after_loop self w) as Hnone.
  rewrite for_each_receive in *. unfold state_after in *.
  cbn [fst db clock ticks uuid4 drawn stdout update_calls] in *.
  cbn [hook_update models_behaviour].
  destruct (issubclass (node_class self) Agent_class);
    cbn [Agent.update Node.update raise outcome fst snd db update_calls];
    (split; [eexists; reflexivity | split; [exact Hnone | reflexivity]]).
Qed.

(** ** What transmit refuses *)



(** ** The transmissions of a vector *)

(** X20.  The transmissions of a vector are the outgoing transmissions of
    its origin that go to its destination, and equally the incoming
    transmissions of its destination that come from its origin, in the same
    order; they do not depend on the vector itself, so parallel vectors
    share them. *)
Theorem vector_transmissions_between_ends :
  forall (s : store) (v : vector) (a b : node),
    node_uuid a = vector_origin_uuid v ->
    node_uuid b = vector_destination_uuid v ->
    Vector.transmissions_ v s
      = filter (fun t => transmission_destination_uuid t =? node_uuid b)
               (Node.outgoing_transmissions a s) /\
    Vector.transmissions_ v s
      = filter (fun t => match Transmission.origin_uuid t s with
                         | Some o => o =? node_uuid a
                         | None => false
                         end)
               (Node.incoming_transmissions b s).
Proof.
  intros s v a b Ha Hb.
  unfold Vector.transmissions_, Node.outgoing_transmissions,
    Node.incoming_transmissions.
  rewrite !filter_sort_by, !filter_twice, Ha, Hb.
  split; f_equal. apply filter_ext. intros t. apply andb_comm.
Qed.

Lemma vector_transmissions_between_ends_witness :
  Vector.transmissions_ (mk_vector "v0" "a1" "a2" vector_alive None)
    (db with_transmissions) = [t3; t2; t1] /\
  filter (fun t => transmission_destination_uuid t =? "a2")
    (Node.outgoing_transmissions A1 (db with_transmissions)) = [t3; t2; t1].
Proof.
  destruct (vector_transmissions_between_ends (db with_transmissions)
              (mk_vector "v0" "a1" "a2" vector_alive None) A1 A2
              eq_refl eq_refl) as [Hout _].
  split; [reflexivity |]. exact (eq_trans (eq_sym Hout) eq_refl).
Defined.

(** ** The retry budget *)

Lemma counted_attempt {S A} (sess : db.session S) (func : M S A)
    (s : S) (c : nat) :
  snd (fst (attempt (session_beside_counter sess) (counted func) (s, c)))
  <= Datatypes.S c.
Proof.
  unfold attempt, bind, db.sessions_scope, try_finally, try_except, bind,
    session_beside_counter, beside_counter, counted.
  cbn [db.connection db.commit db.rollback db.remove fst snd].
  destruct (db.connection S sess s) as [s1 [[]|e]]; cbn [fst snd]; [| lia].
  destruct (func s1) as [s2 [v|e]]; cbn [fst snd].
  - destruct (db.commit S sess s2) as [s3 [[]|e]]; cbn [fst snd ret].
    + destruct (db.remove S sess s3) as [s4 [[]|e]]; cbn; lia.
    + destruct (db.rollback S sess s3) as [s4 [[]|e']]; cbn [fst snd raise];
        destruct (db.remove S sess s4) as [s5 [[]|e'']]; cbn; lia.
  - destruct (db.rollback S sess s2) as [s3 [[]|e']]; cbn [fst snd raise];
      destruct (db.remove S sess s3) as [s4 [[]|e'']]; cbn; lia.
Qed.

Lemma attempt_loop_budget {S A} (sess : db.session S) (func : M S A)
    (n : nat) :
  forall (s : S) (c : nat),
    snd (fst (db.attempt_loop (S * nat) (session_beside_counter sess)
                (counted func) n (s, c)))
    <= c + n.
Proof.
  induction n as [|n IH]; intros s c; [cbn; lia |].
  cbn [db.attempt_loop]. unfold try_except. rewrite attempt_body.
  pose proof (counted_attempt sess func s c) as Hone.
  destruct (attempt (session_beside_counter sess) (counted func) (s, c))
    as [[s1 c1] [v|e]]; cbn [fst snd wrapped] in *; [lia |].
  destruct e as [| | | | | [|msg] |]; cbn [fst snd raise db.is_rollback];
    try lia.
  cbn. specialize (IH s1 c1). lia.
Qed.

(** X21.  Whatever the session and the function do, [serialized] calls the
    function at most one hundred times. *)
Theorem serialized_calls_at_most_100_times :
  forall (S A : Type) (sess : db.session S) (func : M S A) (s : S),
    snd (fst (db.serialized (S * nat) (session_beside_counter sess)
                (counted func) (s, 0)))
    <= 100.
Proof.
  intros S A sess func s. unfold db.serialized.
  apply (attempt_loop_budget sess func 100 s 0).
Qed.
